(** * TikTok popularity dashboard: the feature pipeline of [analysis_tiktok.py]

    A shallow embedding of the training-time preprocessing
    ([preprocess_data]), the two inference entry points ([predict_content],
    [predict_bulk]) and the part of [main] that gates them, followed by the
    properties of that pipeline.

    Conventions.
    - A Python exception is a value [Raise e] of type [result]; code that
      mutates an object runs in a small state-and-exception monad over a
      store of objects, so that what was written before an exception stays
      written.
    - A pandas [int64] column holds integers of [Z] in the signed 64-bit
      range; arithmetic on it wraps around, as numpy's does.
    - A Python [str] is a sequence of code points. The scan of the
      hashtag pattern is written over any alphabet; the tables, the
      vectorizer and the encoders work on texts of the code points
      U+0000..U+00FF, a [string] read character by character, on which
      [\w] and [lower] are the tables below. The messages and labels the
      program shows are kept byte for byte and never inspected.
    - The tables have the dtypes of the scraped data: strings or empty
      fields for text, author and music, whole numbers for the duration,
      int64 for the four counters.
    - What belongs to numpy, pandas and sklearn is modelled as far as the
      program depends on it: the membership test of an array of strings
      with numpy's loss of trailing U+0000, the date parser by the format
      it infers for a column and its verdict on each text under that
      format, the tf-idf weight of a cell by its term count, the fitted
      forest by its decision function. *)

From Stdlib Require Import ZArith String Ascii List Lia Bool Sorted.
From stdpp Require Import gmap strings list fin_maps.

Local Open Scope string_scope.
Local Open Scope Z_scope.

(** ** Exceptions *)

Inductive exn : Type :=
| ValueError (msg : string)
| KeyError (key : string)
| AttributeError (name : string)
| IndexError
| TypeError (msg : string).

Inductive result (A : Type) : Type :=
| Ok (a : A)
| Raise (e : exn).
Arguments Ok {A} a.
Arguments Raise {A} e.

Definition rbind {A B : Type} (r : result A) (k : A -> result B) : result B :=
  match r with
  | Ok a => k a
  | Raise e => Raise e
  end.

Fixpoint rmapM {A B : Type} (f : A -> result B) (l : list A) : result (list B) :=
  match l with
  | [] => Ok []
  | x :: l' => rbind (f x) (fun y => rbind (rmapM f l') (fun ys => Ok (y :: ys)))
  end.

(** [xs[0]] *)
Definition item0 {A : Type} (xs : list A) : result A :=
  match xs with
  | x :: _ => Ok x
  | [] => Raise IndexError
  end.

(** ** sklearn's [LabelEncoder] on a column of strings *)

Module LabelEncoder.

(** The fitted state: [classes_], the sorted distinct values. *)
Record t : Type := { classes_ : list string }.

(** Insertion into a strictly increasing list; a value already there is
    not inserted again. *)
Fixpoint insert_sorted (x : string) (l : list string) : list string :=
  match l with
  | [] => [x]
  | y :: l' =>
      match String.compare x y with
      | Lt => x :: y :: l'
      | Eq => y :: l'
      | Gt => y :: insert_sorted x l'
      end
  end.

(** [sorted(set(values))] *)
Definition unique (values : list string) : list string :=
  foldr insert_sorted [] values.

Definition fit (values : list string) : t := {| classes_ := unique values |}.

Fixpoint index_of (x : string) (l : list string) : option nat :=
  match l with
  | [] => None
  | y :: l' => if String.eqb x y then Some 0%nat else S <$> index_of x l'
  end.

(** [le.transform(values)]: a value outside [classes_] raises
    "y contains previously unseen labels". *)
Definition transform (le : t) (values : list string) : result (list Z) :=
  rmapM (fun v => match index_of v (classes_ le) with
                  | Some i => Ok (Z.of_nat i)
                  | None => Raise (ValueError "y contains previously unseen labels")
                  end) values.

(** [le.fit_transform(values)] *)
Definition fit_transform (values : list string) : t * result (list Z) :=
  let le := fit values in (le, transform le values).

(** What numpy keeps of a string it stores in an array of fixed-width
    strings: the U+0000 characters at its end are lost. *)
Fixpoint rstrip_nul (s : string) : string :=
  match s with
  | EmptyString => EmptyString
  | String c s' =>
      match rstrip_nul s' with
      | EmptyString => if Ascii.eqb c Ascii.zero then EmptyString else String c EmptyString
      | r => String c r
      end
  end.

(** [x in le.classes_], which is [(le.classes_ == x).any()]: numpy turns
    the scalar [x] into an array of its own before it compares, so the
    classes, Python strings of a pandas column, are compared with [x]
    without the U+0000 characters at its end. *)
Definition contains (le : t) (x : string) : bool :=
  existsb (String.eqb (rstrip_nul x)) (classes_ le).

End LabelEncoder.

(** The expression both inference paths use for an author or a music name:
    [le.transform([x])[0] if x in le.classes_ else -1]. The guard and
    [transform] do not look [x] up the same way: [transform] takes [x] as
    it is. *)
Definition encode_or_sentinel (le : LabelEncoder.t) (x : string) : result Z :=
  if LabelEncoder.contains le x
  then rbind (LabelEncoder.transform le [x]) item0
  else Ok (-1).

(** ** int64 arithmetic of the engagement counters *)

Definition int64_min : Z := - 2 ^ 63.
Definition int64_max : Z := 2 ^ 63 - 1.

Definition in_int64 (z : Z) : Prop := int64_min <= z <= int64_max.

Definition wrap64 (z : Z) : Z := (z + 2 ^ 63) mod 2 ^ 64 - 2 ^ 63.

(** Element of [a + b] for two int64 columns. *)
Definition add64 (a b : Z) : Z := wrap64 (a + b).

(** [df['diggCount'] + df['shareCount'] + df['commentCount'] + df['playCount']],
    one row of it. *)
Definition total_interactions (digg share comment play : Z) : Z :=
  add64 (add64 (add64 digg share) comment) play.

(** [(df['total_interactions'] > 10000).astype(int)], one row of it. *)
Definition popular_label (total : Z) : Z := if 10000 <? total then 1 else 0.

(** The label of a row, from its four counters. *)
Definition is_popular (digg share comment play : Z) : Z :=
  popular_label (total_interactions digg share comment play).

(** ** Characters and the two regular expressions *)

Definition char_in (lo hi : N) (c : ascii) : bool :=
  ((lo <=? N_of_ascii c) && (N_of_ascii c <=? hi))%N.

(** [\w] of Python's [re] on a [str] pattern: alphanumeric or underscore.
    Up to U+00FF the alphanumerics are the ASCII digits and letters, the
    ordinal indicators and micro sign, the superscript digits, the vulgar
    fractions and the accented letters. *)
Definition is_word (c : ascii) : bool :=
  char_in 48 57 c || char_in 65 90 c || char_in 97 122 c || char_in 95 95 c
  || char_in 170 170 c || char_in 178 179 c || char_in 181 181 c
  || char_in 185 186 c || char_in 188 190 c
  || char_in 192 214 c || char_in 216 246 c || char_in 248 255 c.

(** [c.lower()] up to U+00FF. *)
Definition lower_char (c : ascii) : ascii :=
  if char_in 65 90 c || char_in 192 214 c || char_in 216 222 c
  then ascii_of_N (N_of_ascii c + 32)
  else c.

Fixpoint lower (s : string) : string :=
  match s with
  | EmptyString => EmptyString
  | String c s' => String (lower_char c) (lower s')
  end.

(** [re.findall(r"#\w+", s)] scans a text the same way whatever its code
    points are: the scan is written over any alphabet, given its hash sign
    and its class [\w]. *)
Module Re.

Section Findall.

Context {char : Type} {char_eq : EqDecision char}.
Variable hash : char.
Variable word : char -> bool.

(** The longest prefix of word characters: what a greedy [\w*] consumes. *)
Fixpoint word_prefix (s : list char) : list char :=
  match s with
  | [] => []
  | c :: s' => if word c then c :: word_prefix s' else []
  end.

(** [re.match(r"#\w+", s)]: the match anchored at the start of [s]. *)
Definition match_hashtag (s : list char) : option (list char) :=
  match s with
  | c :: s' =>
      if decide (c = hash) then
        match word_prefix s' with
        | [] => None
        | w => Some (hash :: w)
        end
      else None
  | [] => None
  end.

(** The scan of [re.findall]: try to match at the current position; after
    a match, resume behind it ([skip] counts the characters of the match
    still to be passed); otherwise move one character on. *)
Fixpoint findall_scan (skip : nat) (s : list char) : list (list char) :=
  match s with
  | [] => []
  | _ :: s' =>
      match skip with
      | S k => findall_scan k s'
      | O =>
          match match_hashtag s with
          | Some m => m :: findall_scan (length m - 1) s'
          | None => findall_scan 0 s'
          end
      end
  end.

(** [re.findall(r"#\w+", s)] *)
Definition findall (s : list char) : list (list char) := findall_scan 0 s.

(** [sep.join(parts)] *)
Fixpoint join (sep : list char) (parts : list (list char)) : list char :=
  match parts with
  | [] => []
  | [x] => x
  | x :: parts' => x ++ sep ++ join sep parts'
  end.

(** [' '.join(re.findall(r"#\w+", str(x)))], the lambda of [hashtags_str]. *)
Definition hashtags_str (space : char) (text : list char) : list char :=
  join [space] (findall text).

End Findall.

End Re.

(** The same on the texts of the tables. *)
Definition findall_hashtags (s : string) : list string :=
  map string_of_list_ascii (Re.findall "#"%char is_word (list_ascii_of_string s)).

Definition hashtags_str (text : string) : string :=
  string_of_list_ascii
    (Re.hashtags_str "#"%char is_word " "%char (list_ascii_of_string text)).

(** [re.findall(r"(?u)\b\w\w+\b", s)], the default [token_pattern] of the
    vectorizer: the maximal runs of word characters that are at least two
    long. [cur] is the run being read, in reverse. *)
Definition close_run (cur : string) : list string :=
  if (2 <=? String.length cur)%nat then [String.rev cur] else [].

Fixpoint tokens_scan (cur : string) (s : string) : list string :=
  match s with
  | EmptyString => close_run cur
  | String c s' =>
      if is_word c then tokens_scan (String c cur) s'
      else close_run cur ++ tokens_scan EmptyString s'
  end.

(** The analyzer of [TfidfVectorizer()]: lowercase, then tokenize. *)
Definition analyze (doc : string) : list string := tokens_scan EmptyString (lower doc).

(** ** sklearn's [TfidfVectorizer(max_features=100)] *)

Definition count_of (term : string) (tokens : list string) : nat :=
  length (filter (fun t => term = t) tokens).

(** Insertion of a pair (count, index) into a list ordered by decreasing
    count; in front of the pairs of equal count. *)
Fixpoint insert_desc (p : nat * nat) (l : list (nat * nat)) : list (nat * nat) :=
  match l with
  | [] => [p]
  | q :: l' => if (q.1 <=? p.1)%nat then p :: q :: l' else q :: insert_desc p l'
  end.

(** [(-tfs).argsort()]: the column indices by decreasing total count.
    numpy promises no order among equal counts; here the lower index comes
    first. *)
Definition argsort_desc (tfs : list nat) : list nat :=
  (foldr insert_desc [] (zip tfs (seq 0 (length tfs)))).*2.

Module TfidfVectorizer.

Definition max_features : nat := 100.

(** The fitted state: the terms in column order ([vocabulary_] read by
    index), the number of fitting documents holding each term and the
    number of fitting documents; [idf_] is computed from the last two. *)
Record t : Type := {
  vocabulary_ : list string;
  doc_freq : list nat;
  n_docs : nat
}.

(** [_limit_features]: with more than [limit] terms, the [limit] terms of
    largest total count stay, in their alphabetical order. *)
Definition limit_features (limit : nat) (terms : list string) (tfs : list nat)
  : list string :=
  if (limit <? length terms)%nat then
    let kept := take limit (argsort_desc tfs) in
    (filter (fun p => p.2 ∈ kept) (zip terms (seq 0 (length terms)))).*1
  else terms.

(** The fit of [fit_transform]: the terms of all documents, sorted and
    limited. A corpus without any token raises "empty vocabulary". *)
Definition fit (raw_documents : list string) : result t :=
  let docs := map analyze raw_documents in
  let terms := LabelEncoder.unique (concat docs) in
  match terms with
  | [] => Raise (ValueError "empty vocabulary; perhaps the documents only contain stop words")
  | _ =>
      let tfs := map (fun term => count_of term (concat docs)) terms in
      let vocab := limit_features max_features terms tfs in
      Ok {| vocabulary_ := vocab;
            doc_freq := map (fun term =>
                          length (filter (fun d => (0 < count_of term d)%nat) docs)) vocab;
            n_docs := length docs |}
  end.

(** [transform(raw_documents)]: one row per document, one column per
    fitted term. A cell is kept as the number of times the term occurs in
    the document: the weight sklearn stores there is that count times the
    column's positive idf, divided by the norm of the row, so it is zero
    exactly when the count is, and a token outside the vocabulary has no
    column. The weighting step validates its input and rejects a matrix
    without rows. *)
Definition row_of (v : t) (doc : string) : list nat :=
  map (fun term => count_of term (analyze doc)) (vocabulary_ v).

Definition transform (v : t) (raw_documents : list string) : result (list (list nat)) :=
  match raw_documents with
  | [] => Raise (ValueError "Found array with 0 sample(s) while a minimum of 1 is required by TfidfTransformer.")
  | _ => Ok (map (row_of v) raw_documents)
  end.

Definition fit_transform (raw_documents : list string) : result (t * list (list nat)) :=
  rbind (fit raw_documents) (fun v =>
  rbind (transform v raw_documents) (fun X => Ok (v, X))).

End TfidfVectorizer.

(** ** Feature matrices and the classifier *)

(** A cell of a feature matrix: a tf-idf weight (kept as its term count),
    a number of the dense block, or NaN. *)
Inductive cell : Type :=
| W (tf : nat)
| Num (z : Z)
| NaN.

Definition num_cell (o : option Z) : cell :=
  match o with
  | Some z => Num z
  | None => NaN
  end.

Definition is_nan (c : cell) : bool :=
  match c with
  | NaN => true
  | _ => false
  end.

Definition width (X : list (list cell)) : nat :=
  match X with
  | row :: _ => length row
  | [] => 0%nat
  end.

(** [np.array(df[[c1, ..., cn]])]: the columns side by side, one row per
    index entry. *)
Fixpoint as_matrix (cols : list (list cell)) : list (list cell) :=
  match cols with
  | [] => []
  | [c] => map (fun x => [x]) c
  | c :: cols' => zip_with cons c (as_matrix cols')
  end.

(** [scipy.sparse.hstack((A, B))] *)
Definition hstack (A B : list (list cell)) : result (list (list cell)) :=
  if (length A =? length B)%nat then Ok (zip_with app A B)
  else Raise (ValueError "blocks have incompatible row dimensions").

(** A fitted [RandomForestClassifier]: the number of columns it was fitted
    on and its decision for a row ([true] is class 1). *)
Record Classifier : Type := {
  n_features_in_ : nat;
  decision : list cell -> bool
}.

(** [model.predict(X)]: the input validation of sklearn, then one label per
    row. A sparse matrix holding NaN is rejected, as is one without rows or
    of another width than the fitted one. *)
Definition predict (model : Classifier) (X : list (list cell)) : result (list Z) :=
  if existsb (existsb is_nan) X then Raise (ValueError "Input X contains NaN.")
  else match X with
       | [] => Raise (ValueError "Found array with 0 sample(s) while a minimum of 1 is required.")
       | _ =>
           if forallb (fun row => (length row =? n_features_in_ model)%nat) X
           then Ok (map (fun row => if decision model row then 1 else 0) X)
           else Raise (ValueError "X has a different number of features than the classifier was fitted with.")
       end.

(** ** Timestamps *)

(** The attributes of a parsed timestamp that the program reads, and its
    offset from UTC in minutes when it has one. *)
Record Timestamp : Type := {
  ts_dayofweek : Z;
  ts_hour : Z;
  ts_minute : Z;
  ts_second : Z;
  ts_utcoffset : option Z
}.

(** A cell of the raw [createTimeISO] column. The date parser belongs to
    pandas and works on the column as a whole: it infers one format from
    the first cell that is not empty and reads every text with it, or, when
    it infers none, reads each text on its own. A text cell carries what
    that parser makes of it: the format inferred from the text ([None] when
    none is) and the timestamp read from the text with the format of its
    column ([read None] when the column has no format); no timestamp where
    the text cannot be read that way. The texts that pandas takes for a
    missing value (NaT, nan and the like) are cells of their own: they are
    strings, which [dropna] keeps, and are read as NaT under any format. *)
Inductive time_cell : Type :=
| TNull
| TNaT (s : string)
| TText (s : string) (guessed : option string) (read : option string -> option Timestamp)
| TStamp (t : Timestamp).

(** [_guess_datetime_format_for_array]: the format of the first cell that
    is not missing, when that cell is a text. *)
Fixpoint column_format (l : list time_cell) : option string :=
  match l with
  | [] => None
  | TNull :: l' => column_format l'
  | TNaT _ :: l' => column_format l'
  | TText _ guessed _ :: _ => guessed
  | TStamp _ :: _ => None
  end.

(** One cell under the format of its column: [None] for a text that cannot
    be read, [Some None] for NaT. *)
Definition read_cell (format : option string) (c : time_cell) : option (option Timestamp) :=
  match c with
  | TNull => Some None
  | TNaT _ => Some None
  | TStamp t => Some (Some t)
  | TText _ _ read => Some <$> read format
  end.

(** The exception of pandas for a text it cannot read; of its message,
    which is worded by the way the text was read, only the text is kept. *)
Definition unparsed (c : time_cell) : exn :=
  match c with
  | TText s _ _ => ValueError ("time data cannot be parsed: " ++ s)
  | _ => ValueError "time data cannot be parsed"
  end.

(** A column holds timestamps of one offset from UTC, or none with an
    offset. *)
Definition same_utcoffset (stamps : list (option Timestamp)) : bool :=
  match omap id stamps with
  | [] => true
  | t :: ts => forallb (fun t' => bool_decide (ts_utcoffset t' = ts_utcoffset t)) ts
  end.

Definition mixed_timezones : exn :=
  ValueError "Mixed timezones detected. Pass utc=True in to_datetime or tz='UTC' in DatetimeIndex to convert to a common timezone.".

(** [pd.to_datetime(column)], which raises on the first text it cannot
    read, and on timestamps of different offsets. *)
Definition to_datetime (l : list time_cell) : result (list (option Timestamp)) :=
  let format := column_format l in
  rbind (rmapM (fun c => match read_cell format c with
                         | Some t => Ok t
                         | None => Raise (unparsed c)
                         end) l)
        (fun stamps => if same_utcoffset stamps then Ok stamps else Raise mixed_timezones).

(** [pd.to_datetime(column, errors='coerce')], which turns a text it cannot
    read into NaT, and still raises on timestamps of different offsets. *)
Definition coerce_cell (format : option string) (c : time_cell) : option Timestamp :=
  default None (read_cell format c).

Definition to_datetime_coerce (l : list time_cell) : result (list (option Timestamp)) :=
  let stamps := map (coerce_cell (column_format l)) l in
  if same_utcoffset stamps then Ok stamps else Raise mixed_timezones.

(** [column.dt.hour] and the like: NaN where the timestamp is NaT. *)
Definition dt (field : Timestamp -> Z) (l : list (option Timestamp)) : list (option Z) :=
  map (fmap field) l.

(** ** Input records *)

(** One post as the inference paths receive it; [None] and [TNull] are
    empty fields (NaN). *)
Record RawRecord : Type := {
  text : option string;
  author : option string;          (* authorMeta.name *)
  music : option string;           (* musicMeta.musicName *)
  duration : option Z;             (* videoMeta.duration *)
  createTimeISO : time_cell
}.

(** One row of the training table: a post, its four int64 counters, and
    whether the columns of the table that the program never reads are all
    filled in this row ([dropna] looks at them too). *)
Record TrainRecord : Type := {
  post : RawRecord;
  diggCount : Z;
  shareCount : Z;
  commentCount : Z;
  playCount : Z;
  other_columns_filled : bool
}.

(** A training row without an empty field. *)
Record CleanRecord : Type := {
  c_text : string;
  c_author : string;
  c_music : string;
  c_duration : Z;
  c_time : time_cell;
  c_digg : Z;
  c_share : Z;
  c_comment : Z;
  c_play : Z
}.

Definition complete (r : TrainRecord) : option CleanRecord :=
  t ← text (post r);
  a ← author (post r);
  m ← music (post r);
  d ← duration (post r);
  _ ← guard (other_columns_filled r = true);
  match createTimeISO (post r) with
  | TNull => None
  | c => Some {| c_text := t; c_author := a; c_music := m; c_duration := d;
                 c_time := c; c_digg := diggCount r; c_share := shareCount r;
                 c_comment := commentCount r; c_play := playCount r |}
  end.

(** [df.dropna(inplace=True)]: the rows with an empty field go. *)
Definition dropna (df : list TrainRecord) : list CleanRecord := omap complete df.

(** ** Training-time preprocessing *)

Definition days_mapping : gmap Z string :=
  list_to_map [(0, "Senin"); (1, "Selasa"); (2, "Rabu"); (3, "Kamis");
               (4, "Jumat"); (5, "Sabtu"); (6, "Minggu")].

(** The table after preprocessing: the kept rows and the derived columns. *)
Record TrainFrame : Type := {
  rows : list CleanRecord;
  authorMeta_name_encoded : list Z;
  musicMeta_musicName_encoded : list Z;
  text_length : list Z;
  hashtags_str_col : list string;
  createTime : list (option Timestamp);
  hour : list (option Z);
  minute : list (option Z);
  second : list (option Z);
  day : list (option string);
  total_interactions_col : list Z;
  is_popular_col : list Z
}.

#[global] Instance result_ret : MRet result := fun A a => Ok a.
#[global] Instance result_bind : MBind result := fun A B k r => rbind r k.

Definition preprocess_data (df : list TrainRecord)
  : result (TrainFrame * list (list cell) * list Z
            * TfidfVectorizer.t * LabelEncoder.t * LabelEncoder.t) :=
  let df := dropna df in
  let '(le_name, name_codes) := LabelEncoder.fit_transform (map c_author df) in
  name_encoded ← name_codes;
  let '(le_music, music_codes) := LabelEncoder.fit_transform (map c_music df) in
  music_encoded ← music_codes;
  let text_length := map (fun r => Z.of_nat (String.length (c_text r))) df in
  let hashtags := map (fun r => hashtags_str (c_text r)) df in
  '(tfidf, hashtag_tfidf) ← TfidfVectorizer.fit_transform hashtags;
  stamps ← to_datetime (map c_time df);
  let hour := dt ts_hour stamps in
  let minute := dt ts_minute stamps in
  let second := dt ts_second stamps in
  let day := map (fun d => d ≫= (days_mapping !!.)) (dt ts_dayofweek stamps) in
  let total :=
    map (fun r => total_interactions (c_digg r) (c_share r) (c_comment r) (c_play r)) df in
  let popular := map popular_label total in
  features ← hstack (map (map W) hashtag_tfidf)
                    (as_matrix [map Num name_encoded; map Num music_encoded;
                                map (fun r => Num (c_duration r)) df;
                                map num_cell hour; map num_cell minute;
                                map num_cell second; map Num text_length]);
  Ok ({| rows := df;
         authorMeta_name_encoded := name_encoded;
         musicMeta_musicName_encoded := music_encoded;
         text_length := text_length;
         hashtags_str_col := hashtags;
         createTime := stamps;
         hour := hour; minute := minute; second := second; day := day;
         total_interactions_col := total;
         is_popular_col := popular |},
      features, popular, tfidf, le_name, le_music).

(** ** The session and single-record inference *)

Inductive section_name : Type := EDA | Model | Data | Prediksi.

(** [st.session_state]: a key that was never assigned is [None]. *)
Record SessionState : Type := {
  section : option section_name;
  model : option Classifier;
  le_name : option LabelEncoder.t;
  le_music : option LabelEncoder.t;
  tfidf : option TfidfVectorizer.t
}.

Definition empty_session : SessionState :=
  {| section := None; model := None; le_name := None; le_music := None; tfidf := None |}.

(** [st.session_state.name]: reading a key that was never assigned raises. *)
Definition attr {A : Type} (name : string) (field : option A) : result A :=
  match field with
  | Some a => Ok a
  | None => Raise (AttributeError ("st.session_state has no attribute " ++ name))
  end.

(** A [datetime.time], the value of the upload-time widget. *)
Record time_of_day : Type := { t_hour : Z; t_minute : Z; t_second : Z }.

(** The feature row [predict_content] assembles before it asks the
    classifier. *)
Definition content_features (st : SessionState) (tfidf : TfidfVectorizer.t)
    (text author music : string) (duration : Z) (waktu : time_of_day)
    : result (list (list cell)) :=
  let text_length := Z.of_nat (String.length text) in
  let hour := t_hour waktu in
  let minute := t_minute waktu in
  let second := t_second waktu in
  name ← attr "le_name" (le_name st);
  author_encoded ← encode_or_sentinel name author;
  mus ← attr "le_music" (le_music st);
  music_encoded ← encode_or_sentinel mus music;
  tfidf_matrix ← TfidfVectorizer.transform tfidf [text];
  hstack (map (map W) tfidf_matrix)
         [[Num author_encoded; Num music_encoded; Num duration;
           Num hour; Num minute; Num second; Num text_length]].

(** [predict_content(model, tfidf, text, author, music, duration, waktu)];
    [st] is the session state it reads the two encoders from. *)
Definition predict_content (st : SessionState) (model : Classifier)
    (tfidf : TfidfVectorizer.t) (text author music : string) (duration : Z)
    (waktu : time_of_day) : result Z :=
  features ← content_features st tfidf text author music duration waktu;
  prediction ← predict model features;
  item0 prediction.

(** ** Data frames as objects of a store *)

(** A column: strings or NaN (object dtype), numbers or NaN, the raw
    timestamp column, or parsed timestamps. *)
Inductive column : Type :=
| ObjCol (l : list (option string))
| NumCol (l : list (option Z))
| RawTimeCol (l : list time_cell)
| DatetimeCol (l : list (option Timestamp)).

(** The frame [pd.read_csv] or [pd.DataFrame] builds from a batch. *)
Definition frame_of_rows (batch : list RawRecord) : gmap string column :=
  <["text" := ObjCol (map text batch)]>
  (<["authorMeta.name" := ObjCol (map author batch)]>
  (<["musicMeta.musicName" := ObjCol (map music batch)]>
  (<["videoMeta.duration" := NumCol (map duration batch)]>
  (<["createTimeISO" := RawTimeCol (map createTimeISO batch)]> ∅)))).

(** A computation on the store of frames: it returns or raises, and leaves
    a store either way. *)
Definition M (A : Type) : Type :=
  gmap positive (gmap string column) -> result A * gmap positive (gmap string column).

#[global] Instance M_ret : MRet M := fun A a h => (Ok a, h).
#[global] Instance M_bind : MBind M := fun A B k m h =>
  match m h with
  | (Ok a, h') => k a h'
  | (Raise e, h') => (Raise e, h')
  end.

Definition lift {A : Type} (r : result A) : M A := fun h => (r, h).

(** [df[key]] *)
Definition getitem (df : positive) (key : string) : M column := fun h =>
  match (h !!! df) !! key with
  | Some c => (Ok c, h)
  | None => (Raise (KeyError key), h)
  end.

(** [df[key] = c]: the frame object itself is changed. *)
Definition setitem (df : positive) (key : string) (c : column) : M unit := fun h =>
  (Ok (), <[df := <[key := c]> (h !!! df)]> h).

(** The columns below are read with the dtype of the input table; a column
    of another dtype is not modelled and reported as a [TypeError]. *)
Definition as_obj (c : column) : result (list (option string)) :=
  match c with
  | ObjCol l => Ok l
  | _ => Raise (TypeError "object column expected")
  end.

Definition as_num (c : column) : result (list (option Z)) :=
  match c with
  | NumCol l => Ok l
  | _ => Raise (TypeError "numeric column expected")
  end.

Definition as_time (c : column) : result (list time_cell) :=
  match c with
  | RawTimeCol l => Ok l
  | DatetimeCol l => Ok (map (fun o => match o with Some t => TStamp t | None => TNull end) l)
  | _ => Raise (TypeError "timestamp column expected")
  end.

(** [str(x)] of a cell of an object column; NaN prints as [nan]. *)
Definition str_of (x : option string) : string := default "nan" x.

Definition status_labels : gmap Z string :=
  list_to_map [(1, "🔥 Populer"); (0, "❄️ Tidak Populer")].

(** [column.apply(lambda x: le.transform([str(x)])[0] if str(x) in
    le.classes_ else -1)], with [le] read from the session for each row. *)
Definition apply_encoder (name : string) (le : option LabelEncoder.t)
    (l : list (option string)) : result (list Z) :=
  rmapM (fun x => enc ← attr name le; encode_or_sentinel enc (str_of x)) l.

(** [predict_bulk(model, tfidf, df_input)]; [st] is the session state the
    two lambdas read, [df_input] the frame object of the caller. *)
Definition predict_bulk (st : SessionState) (model : Classifier)
    (tfidf : TfidfVectorizer.t) (df_input : positive) : M positive :=
  c ← getitem df_input "text";
  txt ← lift (as_obj c);
  let txt := map (default "") txt in
  _ ← setitem df_input "text" (ObjCol (map Some txt));
  _ ← setitem df_input "text_length"
        (NumCol (map (fun s => Some (Z.of_nat (String.length s))) txt));
  c ← getitem df_input "createTimeISO";
  raw ← lift (as_time c);
  stamps ← lift (to_datetime_coerce raw);
  _ ← setitem df_input "createTimeISO" (DatetimeCol stamps);
  _ ← setitem df_input "hour" (NumCol (dt ts_hour stamps));
  _ ← setitem df_input "minute" (NumCol (dt ts_minute stamps));
  _ ← setitem df_input "second" (NumCol (dt ts_second stamps));
  c ← getitem df_input "authorMeta.name";
  names ← lift (as_obj c);
  codes ← lift (apply_encoder "le_name" (le_name st) names);
  _ ← setitem df_input "authorMeta.name_encoded" (NumCol (map Some codes));
  c ← getitem df_input "musicMeta.musicName";
  musics ← lift (as_obj c);
  mcodes ← lift (apply_encoder "le_music" (le_music st) musics);
  _ ← setitem df_input "musicMeta.musicName_encoded" (NumCol (map Some mcodes));
  c ← getitem df_input "text";
  txt' ← lift (as_obj c);
  tfidf_matrix ← lift (TfidfVectorizer.transform tfidf (map str_of txt'));
  dense ← mapM (fun key => c ← getitem df_input key; l ← lift (as_num c);
                           mret (map num_cell l))
               ["authorMeta.name_encoded"; "musicMeta.musicName_encoded";
                "videoMeta.duration"; "hour"; "minute"; "second"; "text_length"];
  features ← lift (hstack (map (map W) tfidf_matrix) (as_matrix dense));
  labels ← lift (predict model features);
  _ ← setitem df_input "status_popularitas" (NumCol (map Some labels));
  c ← getitem df_input "status_popularitas";
  l ← lift (as_num c);
  _ ← setitem df_input "status_popularitas"
        (ObjCol (map (fun o => o ≫= (status_labels !!.)) l));
  mret df_input.

(** ** The application *)

(** What one run of the script puts on the page. *)
Inductive display : Type :=
| ShowError (msg : string)
| ShowCharts
| ShowEvaluation
| ShowDataset
| ShowWarning (msg : string)
| ShowSuccess (msg : string)
| ShowPredictions (table : gmap string column).

(** What one run of the script reads from outside: the sidebar button that
    was pressed, the training table as [load_data] gets it ([None] when
    reading the file fails), the widgets of the three tabs and the weekday
    of [datetime.now()]. *)
Record Ui : Type := {
  sidebar : option section_name;
  data_csv : option (list TrainRecord);
  in_text : string;
  in_author : string;
  in_music : string;
  in_duration : Z;
  in_waktu : time_of_day;
  click_single : bool;
  uploaded_file : option (list RawRecord);
  manual_data : list (string * string * string * Z * time_of_day);
  today : Z;
  click_manual : bool
}.

Definition not_trained_msg : string :=
  "⚠️ Model belum dilatih. Silakan jalankan terlebih dahulu bagian '🧠 Model Evaluasi Konten'.".
Definition popular_msg : string := "❤️‍🔥 Konten ini  **Populer**!".
Definition not_popular_msg : string := "⚠️ Konten ini  **Tidak Populer**.".

(** [predicted_df[[...]]], the six columns the page shows. *)
Definition shown_columns (df : gmap string column) : result (gmap string column) :=
  cols ← rmapM (fun key => match df !! key with
                           | Some c => Ok (key, c)
                           | None => Raise (KeyError key)
                           end)
               ["text"; "authorMeta.name"; "musicMeta.musicName";
                "videoMeta.duration"; "createTimeISO"; "status_popularitas"];
  Ok (list_to_map cols).

(** [predict_bulk] on a frame the run has just built. *)
Definition run_bulk (st : SessionState) (batch : list RawRecord)
  : result (gmap string column) :=
  m ← attr "model" (model st);
  v ← attr "tfidf" (tfidf st);
  let '(r, h) := predict_bulk st m v 1%positive {[ 1%positive := frame_of_rows batch ]} in
  predicted_df ← r;
  shown_columns (h !!! predicted_df).

Definition manual_record (today : Z) (row : string * string * string * Z * time_of_day)
  : RawRecord :=
  let '(text, author, music, duration, waktu) := row in
  {| text := Some text; author := Some author; music := Some music;
     duration := Some duration;
     createTimeISO := TStamp {| ts_dayofweek := today; ts_hour := t_hour waktu;
                                ts_minute := t_minute waktu;
                                ts_second := t_second waktu;
                                ts_utcoffset := None |} |}.

(** The three tabs of the prediction page, in the order the script runs
    them; what was shown before an exception stays shown. *)
Definition prediction_tabs (ui : Ui) (st : SessionState) : result unit * list display :=
  let tab1 : result (list display) :=
    if click_single ui then
      m ← attr "model" (model st);
      v ← attr "tfidf" (tfidf st);
      result ← predict_content st m v (in_text ui) (in_author ui) (in_music ui)
                 (in_duration ui) (in_waktu ui);
      Ok [if result =? 1 then ShowSuccess popular_msg else ShowWarning not_popular_msg]
    else Ok [] in
  match tab1 with
  | Raise e => (Raise e, [])
  | Ok out1 =>
      let tab2 : result (list display) :=
        match uploaded_file ui with
        | Some batch => df ← run_bulk st batch; Ok [ShowPredictions df]
        | None => Ok []
        end in
      match tab2 with
      | Raise e => (Raise e, out1)
      | Ok out2 =>
          let tab3 : result (list display) :=
            if click_manual ui then
              df ← run_bulk st (map (manual_record (today ui)) (manual_data ui));
              Ok [ShowPredictions df]
            else Ok [] in
          match tab3 with
          | Raise e => (Raise e, (out1 ++ out2)%list)
          | Ok out3 => (Ok (), (out1 ++ out2 ++ out3)%list)
          end
      end
  end.

Section Training.

(** The learning step: the stratified split and the fit of the forest.
    It is sklearn's; it either raises or yields a decision function. *)
Variable learner : list (list cell) -> list Z -> result (list cell -> bool).

Definition train_and_evaluate (X : list (list cell)) (y : list Z) : result Classifier :=
  f ← learner X y;
  Ok {| n_features_in_ := width X; decision := f |}.

Definition set_section (s : section_name) (st : SessionState) : SessionState :=
  {| section := Some s; model := model st; le_name := le_name st;
     le_music := le_music st; tfidf := tfidf st |}.

(** One run of [main]: the outcome, the page and the session it leaves. *)
Definition main (ui : Ui) (st : SessionState)
  : result unit * list display * SessionState :=
  let st := match sidebar ui with
            | Some s => set_section s st
            | None => st
            end in
  let st := match section st with
            | None => set_section EDA st
            | Some _ => st
            end in
  match data_csv ui with
  | None => (Ok (), [ShowError "Kesalahan saat memuat data"], st)
  | Some [] => (Ok (), [], st)
  | Some df =>
      match preprocess_data df with
      | Raise e => (Raise e, [], st)
      | Ok (df, X, y, tfidf, le_name, le_music) =>
          match section st with
          | Some Model =>
              match train_and_evaluate X y with
              | Raise e => (Raise e, [], st)
              | Ok model =>
                  (Ok (), [ShowEvaluation],
                   {| section := section st; model := Some model;
                      le_name := Some le_name; le_music := Some le_music;
                      tfidf := Some tfidf |})
              end
          | Some Data => (Ok (), [ShowDataset], st)
          | Some Prediksi =>
              match model st with
              | None => (Ok (), [ShowWarning not_trained_msg], st)
              | Some _ => let '(r, out) := prediction_tabs ui st in (r, out, st)
              end
          | _ => (Ok (), [ShowCharts], st)
          end
      end
  end.

(** The sessions a user can reach from a fresh one. *)
Inductive reachable : SessionState -> Prop :=
| reachable_fresh : reachable empty_session
| reachable_run ui st : reachable st -> reachable (main ui st).2.

End Training.

(** * Properties *)

(** ** The definitions on small inputs *)

Example findall_inside_word : findall_hashtags "a#b ## #_x1! #" = ["#b"; "#_x1"].
Proof. reflexivity. Qed.

Example hashtags_str_none : hashtags_str "no tags here" = "".
Proof. reflexivity. Qed.

Example analyze_caption :
  analyze "Great SONG #fyp #Dance a b cd_e" = ["great"; "song"; "fyp"; "dance"; "cd_e"].
Proof. reflexivity. Qed.

Example fit_sorts_and_dedupes :
  LabelEncoder.classes_ (LabelEncoder.fit ["bob"; "alice"; "bob"; "Zed"])
  = ["Zed"; "alice"; "bob"].
Proof. reflexivity. Qed.

Example transform_raises_on_unseen :
  LabelEncoder.transform (LabelEncoder.fit ["alice"; "bob"]) ["carol"]
  = Raise (ValueError "y contains previously unseen labels").
Proof. reflexivity. Qed.

Example limit_keeps_most_frequent :
  TfidfVectorizer.limit_features 2 ["a"; "b"; "c"; "d"] [3; 5; 5; 1]%nat = ["b"; "c"].
Proof. reflexivity. Qed.

Example vectorizer_on_two_documents :
  TfidfVectorizer.fit_transform ["#dance #fyp"; "#fyp #fyp"]
  = Ok ({| TfidfVectorizer.vocabulary_ := ["dance"; "fyp"];
           TfidfVectorizer.doc_freq := [1%nat; 2%nat];
           TfidfVectorizer.n_docs := 2 |},
        [[1%nat; 1%nat]; [0%nat; 2%nat]]).
Proof. reflexivity. Qed.

Example total_at_threshold :
  is_popular 3000 2000 1000 4000 = 0 /\ is_popular 3000 2000 1000 4001 = 1.
Proof. split; reflexivity. Qed.

Example dropna_drops_incomplete_rows :
  dropna [ {| post := {| text := Some "a"; author := None; music := Some "m";
                         duration := Some 1; createTimeISO := TNull |};
              diggCount := 1; shareCount := 1; commentCount := 1; playCount := 1;
              other_columns_filled := true |};
           {| post := {| text := Some "a"; author := Some "b"; music := Some "m";
                         duration := Some 1;
                         createTimeISO := TText "x" None (fun _ => None) |};
              diggCount := 1; shareCount := 1; commentCount := 1; playCount := 1;
              other_columns_filled := false |} ] = [].
Proof. reflexivity. Qed.

(** ** The lexicographic order of strings *)

Definition str_lt (a b : string) : Prop := String.compare a b = Lt.

Lemma ascii_compare_refl (c : ascii) : Ascii.compare c c = Eq.
Proof. unfold Ascii.compare. apply N.compare_refl. Qed.

Lemma ascii_compare_lt_trans (a b c : ascii) :
  Ascii.compare a b = Lt -> Ascii.compare b c = Lt -> Ascii.compare a c = Lt.
Proof.
  unfold Ascii.compare. rewrite !N.compare_lt_iff. apply N.lt_trans.
Qed.

Lemma str_compare_refl (s : string) : String.compare s s = Eq.
Proof.
  induction s as [|c s IH]; simpl; [done|].
  by rewrite ascii_compare_refl.
Qed.

Lemma str_compare_eq (a b : string) : String.compare a b = Eq <-> a = b.
Proof.
  split; [apply String.compare_eq_iff|].
  intros ->. apply str_compare_refl.
Qed.

Lemma str_compare_gt (a b : string) : String.compare a b = Gt <-> str_lt b a.
Proof.
  unfold str_lt. rewrite (String.compare_antisym b a).
  destruct (String.compare a b); simpl; split; congruence.
Qed.

Lemma str_lt_irrefl (a : string) : ~ str_lt a a.
Proof. unfold str_lt. rewrite str_compare_refl. discriminate. Qed.

Lemma str_lt_trans (a b c : string) : str_lt a b -> str_lt b c -> str_lt a c.
Proof.
  unfold str_lt. revert b c.
  induction a as [|x a IH]; intros [|y b] [|z c]; simpl; try done.
  destruct (Ascii.compare x y) eqn:Hxy; try done.
  - apply Ascii.compare_eq_iff in Hxy as ->.
    destruct (Ascii.compare y z); try done. apply IH.
  - destruct (Ascii.compare y z) eqn:Hyz; try done.
    + apply Ascii.compare_eq_iff in Hyz as <-. by rewrite Hxy.
    + by rewrite (ascii_compare_lt_trans x y z).
Qed.

Lemma str_eqb_true (a b : string) : String.eqb a b = true <-> a = b.
Proof. apply String.eqb_eq. Qed.

(** ** The fitted classes *)

Import LabelEncoder.

Lemma insert_sorted_elem (x y : string) (l : list string) :
  x ∈ insert_sorted y l <-> x = y \/ x ∈ l.
Proof.
  induction l as [|z l IH]; simpl.
  - rewrite list_elem_of_singleton, elem_of_nil. tauto.
  - destruct (String.compare y z) eqn:Hc.
    + apply str_compare_eq in Hc as ->. rewrite elem_of_cons. tauto.
    + rewrite !elem_of_cons. tauto.
    + rewrite !elem_of_cons, IH. tauto.
Qed.

Lemma insert_sorted_sorted (y : string) (l : list string) :
  StronglySorted str_lt l -> StronglySorted str_lt (insert_sorted y l).
Proof.
  induction 1 as [|z l Hl IH Hz]; simpl.
  - repeat constructor.
  - destruct (String.compare y z) eqn:Hc.
    + by constructor.
    + constructor; [by constructor|].
      constructor; [done|].
      eapply Forall_impl; [exact Hz|].
      intros w Hw. by apply (str_lt_trans y z w).
    + constructor; [done|].
      apply Forall_forall. intros w Hw.
      apply insert_sorted_elem in Hw as [->|Hw].
      * by apply str_compare_gt.
      * by apply (proj1 (Forall_forall _ _) Hz).
Qed.

Lemma unique_elem (x : string) (values : list string) :
  x ∈ unique values <-> x ∈ values.
Proof.
  unfold unique. induction values as [|v values IH]; simpl; [done|].
  rewrite insert_sorted_elem, IH, elem_of_cons. tauto.
Qed.

Lemma unique_sorted (values : list string) : StronglySorted str_lt (unique values).
Proof.
  unfold unique. induction values; simpl; [constructor|].
  by apply insert_sorted_sorted.
Qed.

Lemma sorted_NoDup (l : list string) : StronglySorted str_lt l -> NoDup l.
Proof.
  induction 1 as [|z l Hl IH Hz]; constructor; [|done].
  intros Hin. apply (str_lt_irrefl z).
  by apply (proj1 (Forall_forall _ _) Hz).
Qed.

Lemma index_of_Some (x : string) (l : list string) (i : nat) :
  index_of x l = Some i -> l !! i = Some x.
Proof.
  revert i. induction l as [|y l IH]; intros i; simpl; [done|].
  destruct (String.eqb x y) eqn:He.
  - apply str_eqb_true in He as ->. by intros [= <-].
  - destruct (index_of x l) as [j|]; simpl; [|done].
    intros [= <-]. simpl. by apply IH.
Qed.

Lemma index_of_None (x : string) (l : list string) :
  index_of x l = None <-> x ∉ l.
Proof.
  induction l as [|y l IH]; simpl.
  - split; [intros _; apply not_elem_of_nil|done].
  - destruct (String.eqb x y) eqn:He.
    + apply str_eqb_true in He as ->. split; [done|]. intros []. by left.
    + assert (x <> y) by (intros ->; by rewrite String.eqb_refl in He).
      rewrite not_elem_of_cons, <- IH.
      destruct (index_of x l); simpl; split; try done. by intros [_ ?].
Qed.

Lemma index_of_lookup (x : string) (l : list string) (i : nat) :
  NoDup l -> l !! i = Some x -> index_of x l = Some i.
Proof.
  intros Hnd Hi.
  destruct (index_of x l) as [j|] eqn:Hj.
  - apply index_of_Some in Hj. f_equal. by apply (NoDup_lookup l j i x).
  - apply index_of_None in Hj. destruct Hj. by apply list_elem_of_lookup_2 in Hi.
Qed.

Lemma sorted_lookup_lt (l : list string) (i j : nat) (s t : string) :
  StronglySorted str_lt l -> l !! i = Some s -> l !! j = Some t ->
  (i < j)%nat -> str_lt s t.
Proof.
  intros Hl. revert i j. induction Hl as [|z l Hl IH Hz]; intros i j; [done|].
  destruct i as [|i], j as [|j]; simpl; try lia.
  - intros [= <-] Hj _. apply (proj1 (Forall_forall _ _) Hz).
    by apply list_elem_of_lookup_2 in Hj.
  - intros Hi Hj Hlt. apply (IH i j); [done|done|lia].
Qed.

Lemma contains_elem (le : LabelEncoder.t) (x : string) :
  contains le x = true <-> rstrip_nul x ∈ classes_ le.
Proof.
  unfold contains. rewrite existsb_exists. split.
  - intros (y & Hy & He). apply str_eqb_true in He as ->. by apply list_elem_of_In.
  - intros Hx. exists (rstrip_nul x). split; [by apply list_elem_of_In|apply String.eqb_refl].
Qed.

(** The code [transform] has for a string: its index among the fitted
    classes; -1 stands for a string that is not among them. *)
Definition fitted_code (le : LabelEncoder.t) (x : string) : Z :=
  match index_of x (classes_ le) with
  | Some i => Z.of_nat i
  | None => -1
  end.

(** A string that the membership test takes for a fitted class and that
    [transform] does not know: a fitted class followed by U+0000
    characters, not fitted itself. *)
Definition padded (le : LabelEncoder.t) (x : string) : bool :=
  contains le x && negb (bool_decide (x ∈ classes_ le)).

(** The code the inference paths give a string that is not [padded]. *)
Definition sentinel_code (le : LabelEncoder.t) (x : string) : Z :=
  if contains le x then fitted_code le x else -1.

Definition unseen_labels : exn := ValueError "y contains previously unseen labels".

Lemma padded_spec (le : LabelEncoder.t) (x : string) :
  padded le x = true <-> rstrip_nul x ∈ classes_ le /\ x ∉ classes_ le.
Proof.
  unfold padded. rewrite andb_true_iff, contains_elem, negb_true_iff, bool_decide_eq_false.
  done.
Qed.

Lemma encode_or_sentinel_cases (le : LabelEncoder.t) (x : string) :
  encode_or_sentinel le x
  = if padded le x then Raise unseen_labels else Ok (sentinel_code le x).
Proof.
  unfold encode_or_sentinel, padded, sentinel_code, fitted_code, transform.
  destruct (contains le x); [|done]. cbn [rmapM andb].
  destruct (index_of x (classes_ le)) as [i|] eqn:Hi; cbn [rbind item0].
  - apply index_of_Some, list_elem_of_lookup_2 in Hi.
    by rewrite (bool_decide_eq_true_2 _ Hi).
  - apply index_of_None in Hi. by rewrite (bool_decide_eq_false_2 _ Hi).
Qed.

(** A string that does not end in U+0000 is looked up as it is. *)
Lemma padded_plain (le : LabelEncoder.t) (x : string) :
  rstrip_nul x = x -> padded le x = false.
Proof.
  intros Hx. apply not_true_is_false. rewrite padded_spec, Hx. tauto.
Qed.

Lemma sentinel_code_plain (le : LabelEncoder.t) (x : string) :
  rstrip_nul x = x -> sentinel_code le x = fitted_code le x.
Proof.
  intros Hx. unfold sentinel_code, fitted_code.
  destruct (contains le x) eqn:Hc; [done|].
  destruct (index_of x (classes_ le)) as [i|] eqn:Hi; [|done].
  apply index_of_Some, list_elem_of_lookup_2 in Hi.
  rewrite <- Hx in Hi. apply contains_elem in Hi. congruence.
Qed.

Lemma sentinel_code_outside (le : LabelEncoder.t) (x : string) :
  rstrip_nul x ∉ classes_ le -> padded le x = false /\ sentinel_code le x = -1.
Proof.
  intros Hx. assert (Hc : contains le x = false).
  { apply not_true_is_false. by rewrite contains_elem. }
  unfold padded, sentinel_code. by rewrite Hc.
Qed.

Lemma apply_encoder_cases (name : string) (le : LabelEncoder.t) (l : list (option string)) :
  apply_encoder name (Some le) l
  = if existsb (fun x => padded le (str_of x)) l then Raise unseen_labels
    else Ok (map (fun x => sentinel_code le (str_of x)) l).
Proof.
  unfold apply_encoder. induction l as [|x l IH]; [done|].
  cbn [rmapM map existsb]. rewrite IH.
  unfold mbind, result_bind, attr, rbind. rewrite encode_or_sentinel_cases.
  destruct (padded le (str_of x)); [done|]. cbn [orb].
  by destruct (existsb _ l).
Qed.

(** ** Categorical encoder *)

Lemma fit_lookup_code (values : list string) (i : nat) (s : string) :
  classes_ (fit values) !! i = Some s ->
  transform (fit values) [s] = Ok [Z.of_nat i].
Proof.
  intros Hi. unfold transform. cbn [rmapM].
  rewrite (index_of_lookup s _ i); [done| |done].
  apply sorted_NoDup, unique_sorted.
Qed.

Lemma transform_one (le : LabelEncoder.t) (s : string) (c : Z) :
  transform le [s] = Ok [c] ->
  exists i, c = Z.of_nat i /\ classes_ le !! i = Some s.
Proof.
  unfold transform. cbn [rmapM].
  destruct (index_of s (classes_ le)) as [i|] eqn:Hi; [|done].
  intros [= <-]. exists i. split; [done|]. by apply index_of_Some.
Qed.

Lemma transform_known (le : LabelEncoder.t) (l : list string) :
  (forall x, x ∈ l -> x ∈ classes_ le) ->
  transform le l = Ok (map (fitted_code le) l).
Proof.
  intros Hl. unfold transform. induction l as [|x l IH]; [done|].
  cbn [rmapM map]. unfold fitted_code at 1.
  destruct (index_of x (classes_ le)) as [i|] eqn:Hi.
  - cbn [rbind]. rewrite IH; [done|]. intros y Hy. apply Hl. by right.
  - apply index_of_None in Hi. destruct Hi. apply Hl. by left.
Qed.

Lemma fit_transform_Ok (values : list string) :
  LabelEncoder.fit_transform values
  = (LabelEncoder.fit values,
     Ok (map (fitted_code (LabelEncoder.fit values)) values)).
Proof.
  unfold LabelEncoder.fit_transform. f_equal.
  apply transform_known. intros x Hx. by apply unique_elem.
Qed.

Lemma fitted_code_lookup (values : list string) (i : nat) (s : string) :
  classes_ (fit values) !! i = Some s -> fitted_code (fit values) s = Z.of_nat i.
Proof.
  intros Hi. unfold fitted_code. rewrite (index_of_lookup s _ i); [done| |done].
  apply sorted_NoDup, unique_sorted.
Qed.

(** C6. [fit_transform] on any sequence of strings returns the encoder and
    one code for each string of the sequence. The classes of the encoder
    are strictly increasing in the lexicographic order (so sorted and
    without duplicates) and are exactly the observed strings; the code of
    a string is its position among the classes, every position below the
    number K of classes is the code of an observed string, and codes
    compare as the strings do; [transform] gives a fitted string the same
    code, and so does the inference expression of the program for every
    string that does not end in U+0000, which gets the sentinel -1 when it
    was not observed. On alice and bob the codes are 0 and 1, and the
    inference expression gives alice 0, bob 1 and carol -1. *)
Theorem C6_fit_sorted_bijection (values : list string) :
  exists le codes,
    LabelEncoder.fit_transform values = (le, Ok codes)
    /\ le = LabelEncoder.fit values
    /\ StronglySorted str_lt (classes_ le)
    /\ (forall s, s ∈ classes_ le <-> s ∈ values)
    /\ length codes = length values
    /\ (forall k s, values !! k = Some s ->
          exists i, codes !! k = Some (Z.of_nat i)
                    /\ (i < length (classes_ le))%nat
                    /\ classes_ le !! i = Some s
                    /\ transform le [s] = Ok [Z.of_nat i])
    /\ (forall i, (i < length (classes_ le))%nat ->
          exists k s, values !! k = Some s /\ codes !! k = Some (Z.of_nat i)
                      /\ classes_ le !! i = Some s
                      /\ transform le [s] = Ok [Z.of_nat i])
    /\ (forall k l s t i j,
          values !! k = Some s -> values !! l = Some t ->
          codes !! k = Some i -> codes !! l = Some j ->
          (i < j <-> str_lt s t) /\ (i = j <-> s = t))
    /\ (forall s t i j, transform le [s] = Ok [i] -> transform le [t] = Ok [j] ->
          (i < j <-> str_lt s t) /\ (i = j <-> s = t))
    /\ (forall s, rstrip_nul s = s ->
          (s ∉ values -> encode_or_sentinel le s = Ok (-1))
          /\ (forall i, classes_ le !! i = Some s ->
                encode_or_sentinel le s = Ok (Z.of_nat i)))
    /\ LabelEncoder.fit_transform ["alice"; "bob"]
       = ({| classes_ := ["alice"; "bob"] |}, Ok [0; 1])
    /\ encode_or_sentinel (LabelEncoder.fit_transform ["alice"; "bob"]).1 "alice" = Ok 0
    /\ encode_or_sentinel (LabelEncoder.fit_transform ["alice"; "bob"]).1 "bob" = Ok 1
    /\ encode_or_sentinel (LabelEncoder.fit_transform ["alice"; "bob"]).1 "carol" = Ok (-1).
Proof.
  exists (LabelEncoder.fit values), (map (fitted_code (LabelEncoder.fit values)) values).
  set (le := LabelEncoder.fit values).
  assert (Hs : StronglySorted str_lt (classes_ le)) by apply unique_sorted.
  assert (Hcode : forall k s, values !! k = Some s ->
            exists i, map (fitted_code le) values !! k = Some (Z.of_nat i)
                      /\ (i < length (classes_ le))%nat
                      /\ classes_ le !! i = Some s
                      /\ transform le [s] = Ok [Z.of_nat i]).
  { intros k s Hk.
    assert (Hin : s ∈ classes_ le).
    { apply unique_elem. by apply list_elem_of_lookup_2 in Hk. }
    apply list_elem_of_lookup_1 in Hin as [i Hi]. exists i.
    rewrite list_lookup_fmap, Hk. cbn [fmap option_fmap option_map].
    rewrite (fitted_code_lookup values i s Hi : fitted_code le s = _).
    split_and!; [done|by eapply lookup_lt_Some|done|by apply fit_lookup_code]. }
  assert (Hord : forall s t i j, transform le [s] = Ok [i] -> transform le [t] = Ok [j] ->
            (i < j <-> str_lt s t) /\ (i = j <-> s = t)).
  { intros s t i j Hi Hj.
    apply transform_one in Hi as (a & -> & Ha), Hj as (b & -> & Hb).
    split.
    + split.
      * intros Hlt. apply (sorted_lookup_lt (classes_ le) a b); [done..|lia].
      * intros Hlt. destruct (Nat.lt_trichotomy a b) as [?|[->|Hgt]]; [lia| |].
        -- rewrite Ha in Hb. injection Hb as ->. by apply str_lt_irrefl in Hlt.
        -- pose proof (sorted_lookup_lt (classes_ le) b a t s Hs Hb Ha Hgt) as Hts.
           destruct (str_lt_irrefl s). by apply (str_lt_trans s t s).
    + split.
      * intros Heq. assert (a = b) as -> by lia. congruence.
      * intros ->. f_equal. eapply NoDup_lookup; [by apply sorted_NoDup|done..]. }
  split_and!; try done.
  - apply fit_transform_Ok.
  - intros s. apply unique_elem.
  - by rewrite length_map.
  - intros i Hi. destruct (lookup_lt_is_Some_2 (classes_ le) i Hi) as [s Hs'].
    assert (Hin : s ∈ values) by (by apply unique_elem, (list_elem_of_lookup_2 _ i)).
    apply list_elem_of_lookup_1 in Hin as [k Hk].
    exists k, s. rewrite list_lookup_fmap, Hk. cbn [fmap option_fmap option_map].
    rewrite (fitted_code_lookup values i s Hs' : fitted_code le s = _).
    split_and!; [done|done|done|by apply fit_lookup_code].
  - intros k l s t i j Hk Hl Hi Hj.
    destruct (Hcode k s Hk) as (a & Ha & _ & _ & Hta).
    destruct (Hcode l t Hl) as (b & Hb & _ & _ & Htb).
    rewrite Ha in Hi. rewrite Hb in Hj. injection Hi as <-. injection Hj as <-.
    by apply Hord.
  - intros s Hplain.
    rewrite encode_or_sentinel_cases, padded_plain, sentinel_code_plain by done.
    split.
    + intros Hnot. unfold fitted_code.
      destruct (index_of s (classes_ le)) as [i|] eqn:Hi; [|done].
      apply index_of_Some, list_elem_of_lookup_2 in Hi.
      by apply (unique_elem s values) in Hi.
    + intros i Hi. by rewrite (fitted_code_lookup values i s Hi : fitted_code le s = _).
Qed.

(** ** Popularity label *)

Lemma is_popular_binary (likes shares comments plays : Z) :
  is_popular likes shares comments plays = 0 \/ is_popular likes shares comments plays = 1.
Proof. unfold is_popular, popular_label. destruct (_ <? _); [by right|by left]. Qed.

Lemma wrap64_id (z : Z) : in_int64 z -> wrap64 z = z.
Proof.
  unfold in_int64, int64_min, int64_max, wrap64. intros Hz.
  rewrite Z.mod_small; lia.
Qed.

Lemma total_interactions_exact (d s c p : Z) :
  0 <= d -> 0 <= s -> 0 <= c -> 0 <= p -> d + s + c + p <= int64_max ->
  total_interactions d s c p = d + s + c + p.
Proof.
  intros Hd Hs Hc Hp Hsum. unfold total_interactions, add64.
  assert (Hmax : int64_max = 2 ^ 63 - 1) by done.
  assert (Hmin : int64_min = - 2 ^ 63) by done.
  rewrite (wrap64_id (d + s)) by (unfold in_int64; lia).
  rewrite (wrap64_id (d + s + c)) by (unfold in_int64; lia).
  rewrite wrap64_id by (unfold in_int64; lia). done.
Qed.

(** C2, as the code has it. For four non-negative counters whose sum fits
    a signed 64-bit integer, the label is 1 exactly when the sum exceeds
    10000 and 0 otherwise; a sum of exactly 10000 gives 0. *)
Theorem C2_threshold_within_int64 (likes shares comments plays : Z) :
  0 <= likes -> 0 <= shares -> 0 <= comments -> 0 <= plays ->
  likes + shares + comments + plays <= int64_max ->
  (is_popular likes shares comments plays = 1
   <-> 10000 < likes + shares + comments + plays)
  /\ (is_popular likes shares comments plays = 0
      <-> likes + shares + comments + plays <= 10000)
  /\ (likes + shares + comments + plays = 10000
      -> is_popular likes shares comments plays = 0).
Proof.
  intros Hd Hs Hc Hp Hsum. unfold is_popular, popular_label.
  rewrite total_interactions_exact by done.
  destruct (Z.ltb_spec 10000 (likes + shares + comments + plays)); split_and!;
    split || intros; try done; lia.
Qed.

Lemma C2_threshold_witness :
  (is_popular 3000 2000 1000 4001 = 1 <-> 10000 < 3000 + 2000 + 1000 + 4001)
  /\ (is_popular 3000 2000 1000 4001 = 0 <-> 3000 + 2000 + 1000 + 4001 <= 10000)
  /\ (3000 + 2000 + 1000 + 4001 = 10000 -> is_popular 3000 2000 1000 4001 = 0).
Proof.
  apply (C2_threshold_within_int64 3000 2000 1000 4001); unfold int64_max; lia.
Defined.

(** C2 fails beyond the int64 range: two counters of 2^62 are non-negative,
    their sum exceeds 10000, and the wrapped total is negative, so the
    label is 0. *)
Lemma C2_overflow_counterexample :
  0 <= 2 ^ 62 /\ in_int64 (2 ^ 62)
  /\ 10000 < 2 ^ 62 + 2 ^ 62 + 0 + 0
  /\ total_interactions (2 ^ 62) (2 ^ 62) 0 0 = - 2 ^ 63
  /\ is_popular (2 ^ 62) (2 ^ 62) 0 0 = 0.
Proof. unfold in_int64, int64_min, int64_max. split_and!; (done || lia). Qed.

(** ** Hashtag extraction *)

Section FindallFacts.

Context {char : Type} {char_eq : EqDecision char}.
Variable hash : char.
Variable word : char -> bool.

(** What the pattern [#\w+] describes, stated on its own: a hash sign and
    then one or more word characters. *)
Definition hashtag_shape (m : list char) : Prop :=
  exists w, m = hash :: w /\ w <> [] /\ forallb word w = true.

(** Nothing more of the text can be taken into a match: the text ends, or
    goes on with a character outside [\w]. *)
Definition match_ends (rest : list char) : Prop :=
  match rest with
  | [] => True
  | c :: _ => word c = false
  end.

(** [m] occurs in [txt] at offset [i] as a longest match of the pattern. *)
Definition occurs_at (txt : list char) (i : nat) (m : list char) : Prop :=
  exists pre rest, txt = (pre ++ m ++ rest)%list /\ length pre = i
                   /\ hashtag_shape m /\ match_ends rest.

(** The offsets, from [i] on, at which the pattern matches. *)
Fixpoint match_positions (i : nat) (s : list char) : list nat :=
  match s with
  | [] => []
  | _ :: s' =>
      match Re.match_hashtag hash word s with
      | Some _ => i :: match_positions (S i) s'
      | None => match_positions (S i) s'
      end
  end.

(** The matches at all offsets, one after the other. *)
Fixpoint matches_at_offsets (s : list char) : list (list char) :=
  match s with
  | [] => []
  | _ :: s' =>
      match Re.match_hashtag hash word s with
      | Some m => m :: matches_at_offsets s'
      | None => matches_at_offsets s'
      end
  end.

Lemma re_word_prefix_all (s : list char) : forallb word (Re.word_prefix word s) = true.
Proof.
  induction s as [|c s IH]; simpl; [done|].
  destruct (word c) eqn:Hc; simpl; [|done]. by rewrite Hc, IH.
Qed.

Lemma re_word_prefix_split (s : list char) :
  exists rest, s = (Re.word_prefix word s ++ rest)%list /\ match_ends rest.
Proof.
  induction s as [|c s (rest & IH & Hrest)]; simpl.
  - by exists [].
  - destruct (word c) eqn:Hc.
    + exists rest. split; [|done]. simpl. by f_equal.
    + by exists (c :: s).
Qed.

Lemma re_word_prefix_app (w rest : list char) :
  forallb word w = true -> match_ends rest -> Re.word_prefix word (w ++ rest)%list = w.
Proof.
  intros Hw Hrest. induction w as [|c w IH]; simpl in *.
  - destruct rest as [|c rest]; simpl in *; [done|]. by rewrite Hrest.
  - apply andb_prop in Hw as [-> Hw]. by rewrite IH.
Qed.

Lemma re_match_hashtag_spec (s m : list char) :
  Re.match_hashtag hash word s = Some m <->
  exists rest, s = (m ++ rest)%list /\ hashtag_shape m /\ match_ends rest.
Proof.
  split.
  - unfold Re.match_hashtag. destruct s as [|c s]; [done|].
    destruct (decide (c = hash)) as [->|Hc]; [|done].
    destruct (re_word_prefix_split s) as (rest & Hs & Hrest).
    pose proof (re_word_prefix_all s) as Hw.
    destruct (Re.word_prefix word s) as [|d w] eqn:Hp; [done|].
    intros [= <-]. exists rest. split_and!; [|by exists (d :: w)|done].
    simpl. by f_equal.
  - intros (rest & -> & (w & -> & Hne & Hw) & Hrest).
    simpl. rewrite decide_True by done. rewrite re_word_prefix_app by done.
    by destruct w.
Qed.

Lemma match_positions_ge (i j : nat) (s : list char) :
  j ∈ match_positions i s -> (i <= j)%nat.
Proof.
  revert i. induction s as [|c s IH]; intros i; [by intros ?%elem_of_nil|].
  cbn [match_positions]. destruct (Re.match_hashtag hash word (c :: s)).
  - rewrite elem_of_cons. intros [->|H%IH]; lia.
  - intros H%IH. lia.
Qed.

Lemma match_positions_sorted (i : nat) (s : list char) :
  StronglySorted lt (match_positions i s).
Proof.
  revert i. induction s as [|c s IH]; intros i; [constructor|].
  cbn [match_positions]. destruct (Re.match_hashtag hash word (c :: s)); [|apply IH].
  constructor; [apply IH|].
  apply Forall_forall. intros j Hj.
  apply match_positions_ge in Hj. lia.
Qed.

Lemma match_positions_occurs (pre s : list char) :
  Forall2 (occurs_at (pre ++ s)%list) (match_positions (length pre) s)
          (matches_at_offsets s).
Proof.
  revert pre. induction s as [|c s IH]; intros pre; [constructor|].
  cbn [match_positions matches_at_offsets].
  assert (Hrec : Forall2 (occurs_at (pre ++ c :: s)%list)
                   (match_positions (S (length pre)) s) (matches_at_offsets s)).
  { specialize (IH (pre ++ [c])%list).
    by rewrite <- app_assoc, length_app, Nat.add_1_r in IH. }
  destruct (Re.match_hashtag hash word (c :: s)) as [m|] eqn:Hm; [|done].
  constructor; [|done].
  apply re_match_hashtag_spec in Hm as (rest & Hs & Hm & Hrest).
  exists pre, rest. by rewrite Hs.
Qed.

Lemma occurs_in_match_positions (pre s : list char) (j : nat) (m : list char) :
  occurs_at (pre ++ s)%list j m -> (length pre <= j)%nat ->
  j ∈ match_positions (length pre) s.
Proof.
  revert pre. induction s as [|c s IH]; intros pre Hocc Hj.
  - destruct Hocc as (p & rest & Heq & Hlen & (w & -> & _) & _).
    exfalso. apply (f_equal length) in Heq.
    rewrite !length_app in Heq. simpl in Heq. lia.
  - cbn [match_positions].
    destruct (decide (j = length pre)) as [->|Hne].
    + destruct Hocc as (p & rest & Heq & Hlen & Hm & Hrest).
      symmetry in Hlen. destruct (app_inj_1 _ _ _ _ Hlen Heq) as [_ Hs].
      assert (Hsome : Re.match_hashtag hash word (c :: s) = Some m).
      { apply re_match_hashtag_spec. by exists rest. }
      rewrite Hsome. by left.
    + assert (Hin : j ∈ match_positions (S (length pre)) s).
      { specialize (IH (pre ++ [c])%list).
        rewrite <- app_assoc, length_app, Nat.add_1_r in IH. apply IH; [done|lia]. }
      destruct (Re.match_hashtag hash word (c :: s)); [by right|done].
Qed.

Hypothesis hash_outside_word : word hash = false.

(** The scan finds exactly what matching at every offset finds: a match
    and the characters it passes over hold no further hash sign. *)
Lemma re_findall_scan_offsets (s : list char) (k : nat) :
  (k <= length (Re.word_prefix word s))%nat ->
  Re.findall_scan hash word k s = matches_at_offsets s.
Proof.
  revert k. induction s as [|c s IH]; intros k Hk; [by destruct k|].
  destruct k as [|k].
  - cbn [Re.findall_scan matches_at_offsets].
    destruct (Re.match_hashtag hash word (c :: s)) as [m|] eqn:Hm.
    + f_equal. apply IH.
      unfold Re.match_hashtag in Hm.
      destruct (decide (c = hash)); [|done].
      destruct (Re.word_prefix word s) eqn:Hp; [done|].
      injection Hm as <-. simpl. lia.
    + apply IH. lia.
  - cbn [Re.findall_scan matches_at_offsets]. simpl in Hk.
    destruct (word c) eqn:Hc; simpl in Hk; [|lia].
    replace (Re.match_hashtag hash word (c :: s)) with (@None (list char)).
    + apply IH. lia.
    + unfold Re.match_hashtag.
      destruct (decide (c = hash)) as [->|]; [congruence|done].
Qed.

Lemma re_findall_offsets (s : list char) :
  Re.findall hash word s = matches_at_offsets s.
Proof. apply re_findall_scan_offsets. lia. Qed.

End FindallFacts.

(** C7. Over every alphabet whose hash sign is no word character, and so
    for every Python text, the extraction collects exactly the longest
    matches of a hash sign followed by one or more word characters: there
    are increasing offsets at which the collected strings occur, in that
    order, and every offset at which the pattern matches is among them.
    The result joins them with single spaces; it is empty when the pattern
    matches nowhere. The texts of the tables are scanned by this scan, and
    the caption "great song #fyp #dance" gives "#fyp #dance". *)
Theorem C7_hashtag_extraction {char : Type} {char_eq : EqDecision char}
    (hash space : char) (word : char -> bool) (txt : list char) :
  word hash = false ->
  (exists positions,
      StronglySorted lt positions
      /\ Forall2 (occurs_at hash word txt) positions (Re.findall hash word txt)
      /\ (forall i m, occurs_at hash word txt i m -> i ∈ positions))
  /\ Re.hashtags_str hash word space txt = Re.join [space] (Re.findall hash word txt)
  /\ (forall m, Re.findall hash word txt = [m] -> Re.hashtags_str hash word space txt = m)
  /\ (forall m ms, ms <> [] -> Re.findall hash word txt = m :: ms ->
        Re.hashtags_str hash word space txt = (m ++ space :: Re.join [space] ms)%list)
  /\ ((forall i m, ~ occurs_at hash word txt i m) -> Re.hashtags_str hash word space txt = [])
  /\ (forall s : string,
        findall_hashtags s
        = map string_of_list_ascii (Re.findall "#"%char is_word (list_ascii_of_string s))
        /\ hashtags_str s
           = string_of_list_ascii
               (Re.hashtags_str "#"%char is_word " "%char (list_ascii_of_string s)))
  /\ findall_hashtags "great song #fyp #dance" = ["#fyp"; "#dance"]
  /\ hashtags_str "great song #fyp #dance" = "#fyp #dance".
Proof.
  intros Hhash.
  pose proof (match_positions_occurs hash word [] txt) as Hocc.
  rewrite app_nil_l in Hocc. cbn [length] in Hocc.
  rewrite <- (re_findall_offsets hash word Hhash) in Hocc.
  split_and!; try done.
  - exists (match_positions hash word 0 txt).
    split_and!; [apply match_positions_sorted|done|].
    intros i m Him.
    apply (occurs_in_match_positions hash word [] txt i m); [done|simpl; lia].
  - intros m Hm. unfold Re.hashtags_str. by rewrite Hm.
  - intros m ms Hne Hm. unfold Re.hashtags_str. rewrite Hm.
    by destruct ms.
  - intros Hnone. unfold Re.hashtags_str.
    destruct Hocc as [|i m ps ms Him _]; [done|]. by destruct (Hnone i m).
Qed.

Lemma C7_hashtag_extraction_witness :
  Re.hashtags_str "#"%char is_word " "%char (list_ascii_of_string "a#b ## #_x1! #")
  = (list_ascii_of_string "#b" ++ " "%char :: list_ascii_of_string "#_x1")%list.
Proof.
  destruct (C7_hashtag_extraction "#"%char " "%char is_word
              (list_ascii_of_string "a#b ## #_x1! #") eq_refl)
    as (_ & _ & _ & Htwo & _).
  apply (Htwo (list_ascii_of_string "#b") [list_ascii_of_string "#_x1"]); [done|].
  reflexivity.
Defined.

(** ** Hashtags in the texts of the tables *)

(** The notions above on a [string], character by character. *)
Fixpoint all_word (w : string) : bool :=
  match w with
  | EmptyString => true
  | String c w' => is_word c && all_word w'
  end.

Definition is_hashtag (m : string) : Prop :=
  exists w, m = String "#" w /\ w <> EmptyString /\ all_word w = true.

Definition not_word_next (rest : string) : Prop :=
  match rest with
  | EmptyString => True
  | String c _ => is_word c = false
  end.

Fixpoint word_prefix (s : string) : string :=
  match s with
  | EmptyString => EmptyString
  | String c s' => if is_word c then String c (word_prefix s') else EmptyString
  end.

Definition match_hashtag (s : string) : option string :=
  match s with
  | String "#" s' =>
      match word_prefix s' with
      | EmptyString => None
      | w => Some (String "#" w)
      end
  | _ => None
  end.

Fixpoint matches_everywhere (s : string) : list string :=
  match s with
  | EmptyString => []
  | String _ s' =>
      match match_hashtag s with
      | Some m => m :: matches_everywhere s'
      | None => matches_everywhere s'
      end
  end.

Lemma hash_not_word : is_word "#" = false.
Proof. reflexivity. Qed.

Lemma str_app_nil (b : string) : EmptyString +:+ b = b.
Proof. reflexivity. Qed.

Lemma str_app_cons (c : ascii) (a b : string) : String c a +:+ b = String c (a +:+ b).
Proof. reflexivity. Qed.

Lemma str_app_length (a b : string) :
  String.length (a +:+ b) = (String.length a + String.length b)%nat.
Proof.
  induction a as [|c a IH]; [done|].
  rewrite str_app_cons. simpl. by rewrite IH.
Qed.

Lemma word_prefix_all_word (s : string) : all_word (word_prefix s) = true.
Proof.
  induction s as [|c s IH]; simpl; [done|].
  destruct (is_word c) eqn:Hc; simpl; [|done]. by rewrite Hc, IH.
Qed.

Lemma word_prefix_split (s : string) :
  exists rest, s = word_prefix s +:+ rest /\ not_word_next rest.
Proof.
  induction s as [|c s (rest & IH & Hrest)]; simpl.
  - by exists EmptyString.
  - destruct (is_word c) eqn:Hc.
    + exists rest. split; [|done]. rewrite str_app_cons. by f_equal.
    + by exists (String c s).
Qed.

Lemma word_prefix_app (w rest : string) :
  all_word w = true -> not_word_next rest -> word_prefix (w +:+ rest) = w.
Proof.
  intros Hw Hrest. induction w as [|c w IH].
  - rewrite str_app_nil. destruct rest as [|c rest]; simpl in *; [done|]. by rewrite Hrest.
  - rewrite str_app_cons. simpl in *. apply andb_prop in Hw as [-> Hw]. by rewrite IH.
Qed.

Lemma match_hashtag_other (c : ascii) (s : string) :
  c <> "#"%char -> match_hashtag (String c s) = None.
Proof.
  intros Hc. unfold match_hashtag.
  destruct c as [[] [] [] [] [] [] [] []]; done.
Qed.

Lemma match_hashtag_spec (s m : string) :
  match_hashtag s = Some m <->
  exists rest, s = m +:+ rest /\ is_hashtag m /\ not_word_next rest.
Proof.
  split.
  - destruct s as [|c s]; [done|].
    destruct (decide (c = "#"%char)) as [->|Hc].
    + unfold match_hashtag.
      destruct (word_prefix_split s) as (rest & Hs & Hrest).
      pose proof (word_prefix_all_word s) as Hw.
      destruct (word_prefix s) as [|d w] eqn:Hp; [done|].
      intros [= <-]. exists rest. split_and!; [|by exists (String d w)|done].
      rewrite str_app_cons. by f_equal.
    + by rewrite match_hashtag_other.
  - intros (rest & -> & (w & -> & Hne & Hw) & Hrest).
    rewrite str_app_cons. simpl. rewrite word_prefix_app by done.
    by destruct w.
Qed.

(** The scan on a [string] is the scan on its characters. *)
Lemma word_prefix_chars (s : string) :
  Re.word_prefix is_word (list_ascii_of_string s) = list_ascii_of_string (word_prefix s).
Proof.
  induction s as [|c s IH]; simpl; [done|].
  destruct (is_word c); simpl; [by rewrite IH|done].
Qed.

Lemma match_hashtag_chars (s : string) :
  Re.match_hashtag "#"%char is_word (list_ascii_of_string s)
  = list_ascii_of_string <$> match_hashtag s.
Proof.
  destruct s as [|c s]; [done|].
  cbn [list_ascii_of_string Re.match_hashtag].
  destruct (decide (c = "#"%char)) as [->|Hc].
  - rewrite word_prefix_chars. cbn [match_hashtag].
    by destruct (word_prefix s).
  - by rewrite match_hashtag_other.
Qed.

Lemma matches_everywhere_chars (s : string) :
  map string_of_list_ascii
    (matches_at_offsets "#"%char is_word (list_ascii_of_string s))
  = matches_everywhere s.
Proof.
  induction s as [|c s IH]; [done|].
  cbn [matches_everywhere]. change (list_ascii_of_string (String c s))
    with (c :: list_ascii_of_string s) at 1.
  cbn [matches_at_offsets].
  change (c :: list_ascii_of_string s) with (list_ascii_of_string (String c s)).
  rewrite match_hashtag_chars.
  destruct (match_hashtag (String c s)) as [m|]; cbn [fmap option_fmap option_map map].
  - by rewrite string_of_list_ascii_of_string, IH.
  - done.
Qed.

Lemma findall_everywhere (s : string) : findall_hashtags s = matches_everywhere s.
Proof.
  unfold findall_hashtags. rewrite re_findall_offsets by done.
  apply matches_everywhere_chars.
Qed.

Lemma string_of_chars_app (a b : list ascii) :
  string_of_list_ascii (a ++ b)%list = string_of_list_ascii a +:+ string_of_list_ascii b.
Proof. induction a as [|c a IH]; [done|]. simpl. by rewrite IH, str_app_cons. Qed.

Lemma hashtags_str_concat (s : string) :
  hashtags_str s = String.concat " " (findall_hashtags s).
Proof.
  unfold hashtags_str, findall_hashtags, Re.hashtags_str.
  induction (Re.findall "#"%char is_word (list_ascii_of_string s)) as [|m ms IH]; [done|].
  destruct ms as [|m' ms]; [done|].
  change (Re.join [" "%char] (m :: m' :: ms))
    with (m ++ [" "%char] ++ Re.join [" "%char] (m' :: ms))%list.
  rewrite !string_of_chars_app, IH. reflexivity.
Qed.

(** ** The fitted vocabulary *)

Lemma insert_desc_perm (p : nat * nat) (l : list (nat * nat)) :
  insert_desc p l ≡ₚ p :: l.
Proof.
  induction l as [|q l IH]; simpl; [done|].
  destruct (q.1 <=? p.1)%nat; [done|].
  rewrite IH. apply Permutation_swap.
Qed.

Lemma argsort_desc_perm (tfs : list nat) :
  argsort_desc tfs ≡ₚ seq 0 (length tfs).
Proof.
  unfold argsort_desc.
  assert (H : forall l : list (nat * nat), foldr insert_desc [] l ≡ₚ l).
  { induction l as [|p l IH]; simpl; [done|]. by rewrite insert_desc_perm, IH. }
  rewrite H, snd_zip; [done|]. by rewrite length_seq.
Qed.

Lemma filter_kept_length (kept : list nat) (l1 : list string) (l2 : list nat) :
  length l1 = length l2 ->
  length (filter (fun p : string * nat => p.2 ∈ kept) (zip l1 l2))
  = length (filter (fun i => i ∈ kept) l2).
Proof.
  revert l2. induction l1 as [|a l1 IH]; intros [|b l2]; simpl; try done.
  intros [= Hl]. rewrite !filter_cons. simpl.
  destruct (decide (b ∈ kept)); simpl; by rewrite IH.
Qed.

Lemma limit_features_length (limit : nat) (terms : list string) (tfs : list nat) :
  length tfs = length terms ->
  length (TfidfVectorizer.limit_features limit terms tfs)
  = Nat.min limit (length terms).
Proof.
  intros Hl. unfold TfidfVectorizer.limit_features.
  destruct (Nat.ltb_spec limit (length terms)) as [Hlt|Hge]; [|lia].
  cbv zeta. rewrite length_fmap.
  rewrite filter_kept_length by (by rewrite length_seq).
  pose proof (argsort_desc_perm tfs) as Hp. rewrite Hl in Hp.
  assert (Hnd : NoDup (argsort_desc tfs)) by (rewrite Hp; apply NoDup_seq).
  assert (Hlen : length (argsort_desc tfs) = length terms)
    by (by rewrite Hp, length_seq).
  transitivity (length (take limit (argsort_desc tfs))); [|rewrite length_take; lia].
  apply Permutation_length, NoDup_Permutation.
  - apply NoDup_filter, NoDup_seq.
  - rewrite <- (take_drop limit (argsort_desc tfs)) in Hnd.
    by apply NoDup_app in Hnd as [? _].
  - intros i. rewrite list_elem_of_filter. split; [by intros []|].
    intros Hi. split; [done|].
    apply elem_of_take in Hi as (j & Hj & _).
    apply list_elem_of_lookup_2 in Hj. by rewrite Hp in Hj.
Qed.

(** The tokens of a fitting corpus, sorted and without repetition. *)
Definition corpus_terms (raw_documents : list string) : list string :=
  unique (concat (map analyze raw_documents)).

Lemma fit_vocabulary_length (raw_documents : list string) (v : TfidfVectorizer.t) :
  TfidfVectorizer.fit raw_documents = Ok v ->
  length (TfidfVectorizer.vocabulary_ v)
  = Nat.min TfidfVectorizer.max_features (length (corpus_terms raw_documents))
  /\ (0 < length (corpus_terms raw_documents))%nat.
Proof.
  unfold TfidfVectorizer.fit. fold (corpus_terms raw_documents).
  destruct (corpus_terms raw_documents) as [|t ts] eqn:Ht; [done|].
  intros [= <-]. cbn [TfidfVectorizer.vocabulary_].
  split; [|simpl; lia].
  apply limit_features_length. simpl. f_equal. apply length_map.
Qed.

Lemma transform_fitted (raw_documents : list string) (v v' : TfidfVectorizer.t) :
  TfidfVectorizer.fit raw_documents = Ok v ->
  TfidfVectorizer.transform v' raw_documents
  = Ok (map (TfidfVectorizer.row_of v') raw_documents).
Proof. by destruct raw_documents. Qed.

Lemma transform_width (v : TfidfVectorizer.t) (doc : string) :
  length (TfidfVectorizer.row_of v doc) = length (TfidfVectorizer.vocabulary_ v).
Proof. unfold TfidfVectorizer.row_of. by rewrite length_map. Qed.

(** ** What preprocessing returns *)

(** The format pandas infers for the timestamp column of the kept rows. *)
Definition table_format (df : list TrainRecord) : option string :=
  column_format (map c_time (dropna df)).

(** The feature row the fitting path assembles for a kept record; [format]
    is the format of the timestamp column. *)
Definition train_row (format : option string) (a b : LabelEncoder.t)
    (v : TfidfVectorizer.t) (r : CleanRecord) : list cell :=
  (map W (TfidfVectorizer.row_of v (hashtags_str (c_text r)))
   ++ [Num (fitted_code a (c_author r)); Num (fitted_code b (c_music r));
       Num (c_duration r);
       num_cell (ts_hour <$> coerce_cell format (c_time r));
       num_cell (ts_minute <$> coerce_cell format (c_time r));
       num_cell (ts_second <$> coerce_cell format (c_time r));
       Num (Z.of_nat (String.length (c_text r)))])%list.

(** The feature row single-record inference assembles. *)
Definition content_row (a b : LabelEncoder.t) (v : TfidfVectorizer.t)
    (txt author music : string) (duration : Z) (waktu : time_of_day) : list cell :=
  (map W (TfidfVectorizer.row_of v txt)
   ++ [Num (sentinel_code a author); Num (sentinel_code b music); Num duration;
       Num (t_hour waktu); Num (t_minute waktu); Num (t_second waktu);
       Num (Z.of_nat (String.length txt))])%list.

Lemma transform_codes (le : LabelEncoder.t) (l : list string) (codes : list Z) :
  transform le l = Ok codes -> codes = map (fitted_code le) l.
Proof.
  unfold transform. revert codes. induction l as [|x l IH]; intros codes; simpl.
  - by intros [= <-].
  - unfold fitted_code at 1.
    destruct (index_of x (classes_ le)) as [i|]; simpl; [|done].
    destruct (rmapM _ l) as [cs|]; simpl; [|done].
    intros [= <-]. by rewrite (IH cs).
Qed.

(** A cell that [to_datetime] reads under the format of its column. *)
Definition readable (format : option string) (c : time_cell) : Prop :=
  is_Some (read_cell format c).

#[global] Instance readable_dec (format : option string) (c : time_cell) :
  Decision (readable format c).
Proof. unfold readable. apply _. Defined.

Lemma coerce_readable (format : option string) (c : time_cell) :
  readable format c -> read_cell format c = Some (coerce_cell format c).
Proof. intros [t Ht]. unfold coerce_cell. by rewrite Ht. Qed.

Lemma read_cells_Ok (format : option string) (l : list time_cell)
    (stamps : list (option Timestamp)) :
  rmapM (fun c => match read_cell format c with
                  | Some t => Ok t
                  | None => Raise (unparsed c)
                  end) l = Ok stamps ->
  stamps = map (coerce_cell format) l /\ Forall (readable format) l.
Proof.
  revert stamps. induction l as [|c l IH]; intros stamps; cbn [rmapM map].
  - by intros [= <-].
  - destruct (read_cell format c) as [t|] eqn:Hc; cbn [rbind]; [|done].
    destruct (rmapM _ l) as [ss|]; cbn [rbind]; [|done].
    intros [= <-]. destruct (IH ss eq_refl) as [-> Hall].
    split; [|constructor; [by eexists|done]].
    cbn [map]. f_equal. unfold coerce_cell. by rewrite Hc.
Qed.

Lemma read_cells_readable (format : option string) (l : list time_cell) :
  Forall (readable format) l ->
  rmapM (fun c => match read_cell format c with
                  | Some t => Ok t
                  | None => Raise (unparsed c)
                  end) l = Ok (map (coerce_cell format) l).
Proof.
  induction 1 as [|c l Hc _ IH]; [done|]. cbn [rmapM map]. cbv beta.
  rewrite (coerce_readable _ _ Hc). cbn [rbind]. by rewrite IH.
Qed.

(** The texts before the first one that cannot be read are read, and the
    exception names that one. *)
Lemma read_cells_raise (format : option string) (l : list time_cell) :
  ~ Forall (readable format) l ->
  exists before c after,
    l = (before ++ c :: after)%list
    /\ Forall (readable format) before /\ ~ readable format c
    /\ rmapM (fun c => match read_cell format c with
                       | Some t => Ok t
                       | None => Raise (unparsed c)
                       end) l
       = Raise (unparsed c).
Proof.
  induction l as [|c l IH]; intros Hnot; [by destruct Hnot|].
  destruct (decide (readable format c)) as [Hc|Hc].
  - destruct IH as (before & c' & after & -> & Hb & Hc' & Hrun).
    { intros Hl. apply Hnot. by constructor. }
    exists (c :: before), c', after. split_and!; [done|by constructor|done|].
    cbn [rmapM]. cbv beta. rewrite (coerce_readable _ _ Hc). cbn [rbind].
    by rewrite Hrun.
  - exists [], c, l. split_and!; [done|done|done|].
    cbn [rmapM]. destruct (read_cell format c) as [t|] eqn:Ht; [|done].
    destruct Hc. by eexists.
Qed.

Lemma to_datetime_Ok (l : list time_cell) (stamps : list (option Timestamp)) :
  to_datetime l = Ok stamps ->
  stamps = map (coerce_cell (column_format l)) l
  /\ Forall (readable (column_format l)) l
  /\ same_utcoffset stamps = true.
Proof.
  unfold to_datetime.
  destruct (rmapM _ l) as [ss|] eqn:Hread; cbn [rbind]; [|done].
  apply read_cells_Ok in Hread as [-> Hall].
  destruct (same_utcoffset _) eqn:Hsame; [|done]. by intros [= <-].
Qed.

Lemma to_datetime_coerce_Ok (l : list time_cell) (stamps : list (option Timestamp)) :
  to_datetime_coerce l = Ok stamps ->
  stamps = map (coerce_cell (column_format l)) l /\ same_utcoffset stamps = true.
Proof.
  unfold to_datetime_coerce.
  destruct (same_utcoffset _) eqn:Hsame; [|done]. by intros [= <-].
Qed.

Lemma as_matrix_rows {A : Type} (f1 f2 f3 f4 f5 f6 f7 : A -> cell) (l : list A) :
  as_matrix [map f1 l; map f2 l; map f3 l; map f4 l; map f5 l; map f6 l; map f7 l]
  = map (fun x => [f1 x; f2 x; f3 x; f4 x; f5 x; f6 x; f7 x]) l.
Proof. induction l as [|x l IH]; [done|]. simpl in *. by rewrite IH. Qed.

Lemma hstack_rows {A : Type} (f g : A -> list cell) (l : list A) :
  hstack (map f l) (map g l) = Ok (map (fun x => (f x ++ g x)%list) l).
Proof.
  unfold hstack. rewrite !length_map, Nat.eqb_refl. f_equal.
  induction l as [|x l IH]; [done|]. simpl. by rewrite IH.
Qed.

Lemma preprocess_data_inv (df : list TrainRecord) (frame : TrainFrame)
    (X : list (list cell)) (y : list Z) (v : TfidfVectorizer.t) (a b : LabelEncoder.t) :
  preprocess_data df = Ok (frame, X, y, v, a, b) ->
  a = LabelEncoder.fit (map c_author (dropna df))
  /\ b = LabelEncoder.fit (map c_music (dropna df))
  /\ TfidfVectorizer.fit (map (fun r => hashtags_str (c_text r)) (dropna df)) = Ok v
  /\ to_datetime (map c_time (dropna df))
     = Ok (map (coerce_cell (table_format df)) (map c_time (dropna df)))
  /\ X = map (train_row (table_format df) a b v) (dropna df)
  /\ y = map (fun r => is_popular (c_digg r) (c_share r) (c_comment r) (c_play r))
             (dropna df)
  /\ rows frame = dropna df
  /\ is_popular_col frame = y.
Proof.
  unfold preprocess_data, LabelEncoder.fit_transform, TfidfVectorizer.fit_transform,
    table_format.
  set (kept := dropna df).
  set (le_a := LabelEncoder.fit (map c_author kept)).
  set (le_b := LabelEncoder.fit (map c_music kept)).
  destruct (transform le_a (map c_author kept)) as [ca|] eqn:Ha; [|done].
  apply transform_codes in Ha as ->.
  destruct (transform le_b (map c_music kept)) as [cb|] eqn:Hb; [|done].
  apply transform_codes in Hb as ->.
  cbn [mbind result_bind rbind].
  destruct (TfidfVectorizer.fit _) as [vec|] eqn:Hv; [|done].
  cbn [mbind result_bind rbind].
  rewrite (transform_fitted _ vec vec Hv). cbn [mbind result_bind rbind].
  destruct (to_datetime (map c_time kept)) as [stamps|] eqn:Ht; [|done].
  pose proof (to_datetime_Ok _ _ Ht) as (-> & _ & _).
  set (format := column_format (map c_time kept)) in *.
  cbn [mbind result_bind rbind]. unfold dt.
  rewrite !map_map.
  rewrite (as_matrix_rows
             (fun r => Num (fitted_code le_a (c_author r)))
             (fun r => Num (fitted_code le_b (c_music r)))
             (fun r => Num (c_duration r))
             (fun r => num_cell (ts_hour <$> coerce_cell format (c_time r)))
             (fun r => num_cell (ts_minute <$> coerce_cell format (c_time r)))
             (fun r => num_cell (ts_second <$> coerce_cell format (c_time r)))
             (fun r => Num (Z.of_nat (String.length (c_text r)))) kept).
  rewrite (hstack_rows (fun r => map W (TfidfVectorizer.row_of vec (hashtags_str (c_text r))))).
  cbn [mbind result_bind rbind]. intros [= <- <- <- <- <- <-].
  split_and!; done.
Qed.

(** Single-record inference assembles its row unless the author or the
    music name is [padded], in which case [transform] raises. *)
Lemma content_features_cases (st : SessionState) (a b : LabelEncoder.t)
    (v : TfidfVectorizer.t) (txt author music : string) (duration : Z)
    (waktu : time_of_day) :
  le_name st = Some a -> le_music st = Some b ->
  content_features st v txt author music duration waktu
  = if padded a author || padded b music then Raise unseen_labels
    else Ok [content_row a b v txt author music duration waktu].
Proof.
  intros Ha Hb. unfold content_features. rewrite Ha, Hb.
  cbn [attr mbind result_bind rbind].
  rewrite !encode_or_sentinel_cases.
  destruct (padded a author); [done|]. cbn [rbind orb].
  destruct (padded b music); [done|]. cbn [rbind].
  unfold TfidfVectorizer.transform. by cbn.
Qed.

Lemma content_features_Ok (st : SessionState) (a b : LabelEncoder.t)
    (v : TfidfVectorizer.t) (txt author music : string) (duration : Z)
    (waktu : time_of_day) :
  le_name st = Some a -> le_music st = Some b ->
  padded a author = false -> padded b music = false ->
  content_features st v txt author music duration waktu
  = Ok [content_row a b v txt author music duration waktu].
Proof.
  intros Ha Hb Hpa Hpb. by rewrite (content_features_cases st a b), Hpa, Hpb.
Qed.

(** The labels preprocessing returns are the thresholded totals of the kept
    rows, one per feature row. *)
Lemma preprocess_labels (df : list TrainRecord) (frame : TrainFrame)
    (X : list (list cell)) (y : list Z) (v : TfidfVectorizer.t) (a b : LabelEncoder.t) :
  preprocess_data df = Ok (frame, X, y, v, a, b) ->
  y = map (fun r => is_popular (c_digg r) (c_share r) (c_comment r) (c_play r)) (dropna df)
  /\ is_popular_col frame = y
  /\ length y = length X.
Proof.
  intros Hpre. apply preprocess_data_inv in Hpre as (_ & _ & _ & _ & -> & -> & _ & ->).
  by rewrite !length_map.
Qed.

(** ** A small table for the examples *)

Definition wednesday_morning : Timestamp :=
  {| ts_dayofweek := 2; ts_hour := 10; ts_minute := 20; ts_second := 30;
     ts_utcoffset := None |}.

(** A timestamp text in the spelling 2024-01-03T10:20:30: pandas infers
    the format below from it and reads it with that format, or on its own
    in a column without a format. *)
Definition iso_format : string := "%Y-%m-%dT%H:%M:%S".

Definition iso_text (s : string) (t : Timestamp) : time_cell :=
  TText s (Some iso_format)
        (fun format => match format with
                       | None => Some t
                       | Some f => if String.eqb f iso_format then Some t else None
                       end).

(** A text that is no date, whatever the format. *)
Definition no_date (s : string) : time_cell := TText s None (fun _ => None).

(** Two posts with the hashtags fyp and dance; the caption of the first
    also has the plain word "dance". *)
Definition two_posts : list TrainRecord :=
  [ {| post := {| text := Some "dance #fyp"; author := Some "alice";
                  music := Some "song"; duration := Some 15;
                  createTimeISO := iso_text "2024-01-03T10:20:30" wednesday_morning |};
       diggCount := 3000; shareCount := 2000; commentCount := 1000; playCount := 4001;
       other_columns_filled := true |};
    {| post := {| text := Some "#dance #fyp"; author := Some "bob";
                  music := Some "song"; duration := Some 15;
                  createTimeISO := iso_text "2024-01-03T10:20:30" wednesday_morning |};
       diggCount := 3000; shareCount := 2000; commentCount := 1000; playCount := 4000;
       other_columns_filled := true |} ].

(** ** Bulk inference, step by step *)

(** The format pandas infers for the timestamp column of a batch. *)
Definition batch_format (batch : list RawRecord) : option string :=
  column_format (map createTimeISO batch).

(** The feature row the bulk path assembles for a record of the batch;
    [format] is the format of the timestamp column. *)
Definition bulk_row (format : option string) (a b : LabelEncoder.t)
    (v : TfidfVectorizer.t) (r : RawRecord) : list cell :=
  (map W (TfidfVectorizer.row_of v (default "" (text r)))
   ++ [Num (sentinel_code a (str_of (author r))); Num (sentinel_code b (str_of (music r)));
       num_cell (duration r);
       num_cell (ts_hour <$> coerce_cell format (createTimeISO r));
       num_cell (ts_minute <$> coerce_cell format (createTimeISO r));
       num_cell (ts_second <$> coerce_cell format (createTimeISO r));
       Num (Z.of_nat (String.length (default "" (text r))))])%list.

(** The caller's frame on the way through [predict_bulk]: after the two
    text columns are written, after the timestamps are converted, after
    the authors are encoded, and when the classifier is asked (two columns
    overwritten, seven added). *)
Definition texted_frame (batch : list RawRecord) : gmap string column :=
  <["text_length" :=
      NumCol (map (fun r => Some (Z.of_nat (String.length (default "" (text r))))) batch)]>
  (<["text" := ObjCol (map (fun r => Some (default "" (text r))) batch)]>
     (frame_of_rows batch)).

Definition timed_frame (batch : list RawRecord) : gmap string column :=
  let stamp r := coerce_cell (batch_format batch) (createTimeISO r) in
  <["second" := NumCol (map (fun r => ts_second <$> stamp r) batch)]>
  (<["minute" := NumCol (map (fun r => ts_minute <$> stamp r) batch)]>
  (<["hour" := NumCol (map (fun r => ts_hour <$> stamp r) batch)]>
  (<["createTimeISO" := DatetimeCol (map stamp batch)]> (texted_frame batch)))).

Definition named_frame (a : LabelEncoder.t) (batch : list RawRecord)
  : gmap string column :=
  <["authorMeta.name_encoded" :=
      NumCol (map (fun r => Some (sentinel_code a (str_of (author r)))) batch)]>
  (timed_frame batch).

Definition prepared_frame (a b : LabelEncoder.t) (batch : list RawRecord)
  : gmap string column :=
  <["musicMeta.musicName_encoded" :=
      NumCol (map (fun r => Some (sentinel_code b (str_of (music r)))) batch)]>
  (named_frame a batch).

Ltac frame_lookup :=
  repeat first
    [ rewrite lookup_total_insert_eq
    | rewrite lookup_insert_eq
    | rewrite lookup_insert_ne by done ].

Lemma run_bind {A B : Type} (m : M A) (k : A -> M B)
    (h h' : gmap positive (gmap string column)) (a : A) :
  m h = (Ok a, h') -> (m ≫= k) h = k a h'.
Proof. intros Hm. unfold mbind, M_bind. by rewrite Hm. Qed.

Lemma run_bind_raise {A B : Type} (m : M A) (k : A -> M B)
    (h h' : gmap positive (gmap string column)) (e : exn) :
  m h = (Raise e, h') -> (m ≫= k) h = (Raise e, h').
Proof. intros Hm. unfold mbind, M_bind. by rewrite Hm. Qed.

Lemma getitem_at (df : positive) (key : string) (c : column) (F : gmap string column)
    (h : gmap positive (gmap string column)) :
  F !! key = Some c -> getitem df key (<[df := F]> h) = (Ok c, <[df := F]> h).
Proof. intros Hc. unfold getitem. by rewrite lookup_total_insert_eq, Hc. Qed.

Lemma setitem_at (df : positive) (key : string) (c : column) (F : gmap string column)
    (h : gmap positive (gmap string column)) :
  setitem df key c (<[df := F]> h) = (Ok (), <[df := <[key := c]> F]> h).
Proof. unfold setitem. by rewrite lookup_total_insert_eq, insert_insert_eq. Qed.

Ltac run_get :=
  erewrite run_bind;
  [|apply getitem_at;
    unfold prepared_frame, named_frame, timed_frame, texted_frame, frame_of_rows;
    frame_lookup; reflexivity];
  cbv beta.
Ltac run_set := erewrite run_bind; [|apply setitem_at]; cbv beta.
Ltac run_pure := erewrite run_bind; [|unfold lift; reflexivity]; cbv beta.

Lemma mapM_run_nil {A B : Type} (f : A -> M B) (h : gmap positive (gmap string column)) :
  mapM f [] h = (Ok [], h).
Proof. reflexivity. Qed.

Lemma mapM_run_cons {A B : Type} (f : A -> M B) (x : A) (l : list A) (y : B)
    (ys : list B) (h h' h'' : gmap positive (gmap string column)) :
  f x h = (Ok y, h') -> mapM f l h' = (Ok ys, h'') ->
  mapM f (x :: l) h = (Ok (y :: ys), h'').
Proof.
  intros Hx Hl. cbn [mapM].
  erewrite run_bind by exact Hx. erewrite run_bind by exact Hl. reflexivity.
Qed.

(** The dense block [np.array(df_input[[...]])] is read from the prepared
    frame. *)
Lemma dense_block_run (a b : LabelEncoder.t) (df_input : positive)
    (h : gmap positive (gmap string column)) (batch : list RawRecord) :
  mapM (fun key => c ← getitem df_input key; l ← lift (as_num c);
                   mret (map num_cell l))
       ["authorMeta.name_encoded"; "musicMeta.musicName_encoded";
        "videoMeta.duration"; "hour"; "minute"; "second"; "text_length"]
       (<[df_input := prepared_frame a b batch]> h)
  = (Ok [map (fun r => Num (sentinel_code a (str_of (author r)))) batch;
         map (fun r => Num (sentinel_code b (str_of (music r)))) batch;
         map (fun r => num_cell (duration r)) batch;
         map (fun r => num_cell (ts_hour <$> coerce_cell (batch_format batch) (createTimeISO r)))
             batch;
         map (fun r => num_cell (ts_minute <$> coerce_cell (batch_format batch) (createTimeISO r)))
             batch;
         map (fun r => num_cell (ts_second <$> coerce_cell (batch_format batch) (createTimeISO r)))
             batch;
         map (fun r => Num (Z.of_nat (String.length (default "" (text r))))) batch],
     <[df_input := prepared_frame a b batch]> h).
Proof.
  etrans.
  { repeat (eapply mapM_run_cons; [run_get; run_pure; reflexivity|]).
    apply mapM_run_nil. }
  by rewrite !map_map.
Qed.

(** What the batch gets from the vectorizer and the classifier: the labels,
    or the exception of the first of the two to reject its input. *)
Definition bulk_outcome (m : Classifier) (a b : LabelEncoder.t)
    (v : TfidfVectorizer.t) (batch : list RawRecord) : result (list Z) :=
  match batch with
  | [] => Raise (ValueError "Found array with 0 sample(s) while a minimum of 1 is required by TfidfTransformer.")
  | _ => predict m (map (bulk_row (batch_format batch) a b v) batch)
  end.

(** The timestamps of the batch have one offset from UTC. *)
Definition one_timezone (batch : list RawRecord) : bool :=
  same_utcoffset (map (fun r => coerce_cell (batch_format batch) (createTimeISO r)) batch).

(** Some author (some music name) of the batch is [padded]. *)
Definition padded_author (a : LabelEncoder.t) (batch : list RawRecord) : bool :=
  existsb (fun r => padded a (str_of (author r))) batch.

Definition padded_music (b : LabelEncoder.t) (batch : list RawRecord) : bool :=
  existsb (fun r => padded b (str_of (music r))) batch.

Lemma existsb_over_map {A B : Type} (f : B -> bool) (g : A -> B) (l : list A) :
  existsb f (map g l) = existsb (fun x => f (g x)) l.
Proof. induction l as [|x l IH]; [done|]. simpl. by rewrite IH. Qed.

Lemma to_datetime_coerce_batch (batch : list RawRecord) :
  to_datetime_coerce (map createTimeISO batch)
  = if one_timezone batch
    then Ok (map (fun r => coerce_cell (batch_format batch) (createTimeISO r)) batch)
    else Raise mixed_timezones.
Proof. unfold to_datetime_coerce, one_timezone, batch_format. by rewrite map_map. Qed.

(** [predict_bulk], step by step: the exception it ends with, if any, and
    the frame it leaves. *)
Lemma predict_bulk_run (st : SessionState) (m : Classifier) (v : TfidfVectorizer.t)
    (a b : LabelEncoder.t) (df_input : positive)
    (h : gmap positive (gmap string column)) (batch : list RawRecord) :
  le_name st = Some a -> le_music st = Some b ->
  h !! df_input = Some (frame_of_rows batch) ->
  predict_bulk st m v df_input h =
  if negb (one_timezone batch)
  then (Raise mixed_timezones, <[df_input := texted_frame batch]> h)
  else if padded_author a batch
  then (Raise unseen_labels, <[df_input := timed_frame batch]> h)
  else if padded_music b batch
  then (Raise unseen_labels, <[df_input := named_frame a batch]> h)
  else match bulk_outcome m a b v batch with
       | Ok labels =>
           (Ok df_input,
            <[df_input := <["status_popularitas" :=
                              ObjCol (map (fun z => status_labels !! z) labels)]>
                          (prepared_frame a b batch)]> h)
       | Raise e => (Raise e, <[df_input := prepared_frame a b batch]> h)
       end.
Proof.
  intros Ha Hb Hh.
  rewrite <- (insert_id h df_input _ Hh) at 1.
  unfold predict_bulk. rewrite Ha, Hb.
  run_get. run_pure. run_set. run_set.
  rewrite !map_map. fold (texted_frame batch).
  run_get. run_pure. rewrite to_datetime_coerce_batch.
  destruct (one_timezone batch); cbn [negb];
    [|erewrite run_bind_raise; [|unfold lift; reflexivity]; reflexivity].
  run_pure. run_set. run_set. run_set. run_set.
  unfold dt. rewrite !map_map. fold (timed_frame batch).
  run_get. run_pure. rewrite apply_encoder_cases, existsb_over_map.
  fold (padded_author a batch).
  destruct (padded_author a batch);
    [erewrite run_bind_raise; [|unfold lift; reflexivity]; reflexivity|].
  run_pure. run_set. rewrite !map_map. fold (named_frame a batch).
  run_get. run_pure. rewrite apply_encoder_cases, existsb_over_map.
  fold (padded_music b batch).
  destruct (padded_music b batch);
    [erewrite run_bind_raise; [|unfold lift; reflexivity]; reflexivity|].
  run_pure. run_set. rewrite !map_map. fold (prepared_frame a b batch).
  run_get. run_pure.
  rewrite !map_map. cbv beta.
  destruct (decide (batch = [])) as [->|Hne].
  { erewrite run_bind_raise; [|unfold lift; reflexivity]. reflexivity. }
  assert (Htr : forall f : RawRecord -> string,
            TfidfVectorizer.transform v (map f batch)
            = Ok (map (TfidfVectorizer.row_of v) (map f batch)))
    by (intros f; by destruct batch).
  assert (Hout : bulk_outcome m a b v batch
                 = predict m (map (bulk_row (batch_format batch) a b v) batch))
    by (by destruct batch).
  rewrite Htr, Hout. run_pure.
  erewrite run_bind; [|apply dense_block_run]. cbv beta.
  rewrite as_matrix_rows, !map_map.
  rewrite (hstack_rows (fun r => map W (TfidfVectorizer.row_of v (default "" (text r))))).
  run_pure.
  change (map _ batch) with (map (bulk_row (batch_format batch) a b v) batch).
  destruct (predict m (map (bulk_row (batch_format batch) a b v) batch)) as [labels|e].
  - run_pure. run_set.
    erewrite run_bind; [|apply getitem_at; frame_lookup; reflexivity]. cbv beta.
    run_pure. run_set.
    unfold mret, M_ret. rewrite insert_insert_eq, !map_map. reflexivity.
  - erewrite run_bind_raise; [|unfold lift; reflexivity].
    reflexivity.
Qed.

(** ** What the classifier accepts *)

Definition label_of (m : Classifier) (row : list cell) : Z :=
  if decision m row then 1 else 0.

Lemma predict_nan (m : Classifier) (X : list (list cell)) (row : list cell) :
  row ∈ X -> NaN ∈ row -> predict m X = Raise (ValueError "Input X contains NaN.").
Proof.
  intros Hrow Hnan. unfold predict.
  replace (existsb (existsb is_nan) X) with true; [done|].
  symmetry. apply existsb_exists. exists row. split; [by apply list_elem_of_In|].
  apply existsb_exists. exists NaN. split; [by apply list_elem_of_In|done].
Qed.

Lemma predict_Ok (m : Classifier) (X : list (list cell)) :
  X <> [] ->
  (forall row, row ∈ X -> (NaN ∉ row) /\ length row = n_features_in_ m) ->
  predict m X = Ok (map (label_of m) X).
Proof.
  intros Hne Hrows. unfold predict.
  replace (existsb (existsb is_nan) X) with false.
  - destruct X as [|r X']; [done|].
    replace (forallb _ (r :: X')) with true; [done|].
    symmetry. apply forallb_forall. intros row Hrow.
    apply list_elem_of_In in Hrow. apply Nat.eqb_eq. by apply Hrows.
  - symmetry. apply not_true_is_false. intros Hex.
    apply existsb_exists in Hex as (row & Hrow & Hex).
    apply existsb_exists in Hex as (c & Hc & Hnan).
    destruct c; try done.
    apply list_elem_of_In in Hrow, Hc. by destruct (Hrows row Hrow).
Qed.

Lemma predict_empty (m : Classifier) :
  predict m [] = Raise (ValueError "Found array with 0 sample(s) while a minimum of 1 is required.").
Proof. reflexivity. Qed.

Lemma bulk_row_length (format : option string) (a b : LabelEncoder.t)
    (v : TfidfVectorizer.t) (r : RawRecord) :
  length (bulk_row format a b v r) = (length (TfidfVectorizer.vocabulary_ v) + 7)%nat.
Proof.
  unfold bulk_row. rewrite length_app, length_map, transform_width. simpl. lia.
Qed.

Lemma num_cell_nan (o : option Z) : num_cell o = NaN <-> o = None.
Proof. by destruct o. Qed.

Lemma bulk_row_nan (format : option string) (a b : LabelEncoder.t)
    (v : TfidfVectorizer.t) (r : RawRecord) :
  NaN ∈ bulk_row format a b v r <->
  duration r = None \/ coerce_cell format (createTimeISO r) = None.
Proof.
  unfold bulk_row. rewrite elem_of_app, list_elem_of_fmap, !elem_of_cons, elem_of_nil.
  destruct (duration r) as [d|], (coerce_cell format (createTimeISO r)) as [t|]; simpl;
    split; try (intros _; by (left + right)).
  - intros [(n & ? & _)|[?|[?|[?|[?|[?|[?|[?|[]]]]]]]]]; done.
  - intros [?|?]; done.
  - intros _. right. do 3 right. by left.
  - intros _. right. do 2 right. by left.
  - intros _. right. do 2 right. by left.
Qed.

(** ** A trained session for the examples *)

(** A learner that always succeeds, with a forest that answers class 1. *)
Definition demo_learner (X : list (list cell)) (y : list Z) : result (list cell -> bool) :=
  Ok (fun _ => true).

Definition noon : time_of_day := {| t_hour := 12; t_minute := 1; t_second := 0 |}.

(** A run of the script on the page [page], with the two posts as the
    training table and nothing entered or pressed in the tabs. *)
Definition visit (page : section_name) : Ui :=
  {| sidebar := Some page; data_csv := Some two_posts;
     in_text := ""; in_author := ""; in_music := ""; in_duration := 0;
     in_waktu := noon; click_single := false; uploaded_file := None;
     manual_data := []; today := 0; click_manual := false |}.

Definition demo_model : Classifier :=
  {| n_features_in_ := 9; decision := fun _ => true |}.

Definition demo_vectorizer : TfidfVectorizer.t :=
  {| TfidfVectorizer.vocabulary_ := ["dance"; "fyp"];
     TfidfVectorizer.doc_freq := [1%nat; 2%nat];
     TfidfVectorizer.n_docs := 2 |}.

Definition trained_session : SessionState :=
  {| section := Some Model; model := Some demo_model;
     le_name := Some {| classes_ := ["alice"; "bob"] |};
     le_music := Some {| classes_ := ["song"] |};
     tfidf := Some demo_vectorizer |}.

Lemma trained_session_run :
  main demo_learner (visit Model) empty_session = (Ok (), [ShowEvaluation], trained_session).
Proof. vm_compute. reflexivity. Qed.

(** A batch of two records; the timestamp of the second does not parse. *)
Definition bad_time_batch : list RawRecord :=
  [ {| text := Some "dance #fyp"; author := Some "alice"; music := Some "song";
       duration := Some 15;
       createTimeISO := iso_text "2024-01-03T10:20:30" wednesday_morning |};
    {| text := Some "#fyp"; author := Some "carol"; music := Some "song";
       duration := Some 20;
       createTimeISO := no_date "kemarin sore" |} ].

(** ** Feature assembly *)

(** C5, as the code has it. Whenever preprocessing succeeds, the text block
    has one column per fitted term: V columns, where V is the number of
    distinct tokens of the fitting corpus or 100, whichever is smaller, and
    at least 1. Every fitting row, every row that single-record inference
    assembles and every row of bulk inference is that block followed by
    the seven numbers author code, music code, duration, hour, minute,
    second and text length, in this order: V + 7 columns in each.
    Single-record inference assembles its row for every input whose author
    and music name are not a fitted class followed by U+0000 characters,
    and never assembles another row. *)
Theorem C5_column_stability (df : list TrainRecord) (frame : TrainFrame)
    (X : list (list cell)) (y : list Z) (v : TfidfVectorizer.t) (a b : LabelEncoder.t) :
  preprocess_data df = Ok (frame, X, y, v, a, b) ->
  let V := length (TfidfVectorizer.vocabulary_ v) in
  V = Nat.min 100 (length (corpus_terms (map (fun r => hashtags_str (c_text r)) (dropna df))))
  /\ (1 <= V <= 100)%nat
  /\ X = map (train_row (table_format df) a b v) (dropna df)
  /\ (forall format r,
        length (train_row format a b v r) = (V + 7)%nat
        /\ take V (train_row format a b v r)
           = map W (TfidfVectorizer.row_of v (hashtags_str (c_text r)))
        /\ drop V (train_row format a b v r)
           = [Num (fitted_code a (c_author r)); Num (fitted_code b (c_music r));
              Num (c_duration r);
              num_cell (ts_hour <$> coerce_cell format (c_time r));
              num_cell (ts_minute <$> coerce_cell format (c_time r));
              num_cell (ts_second <$> coerce_cell format (c_time r));
              Num (Z.of_nat (String.length (c_text r)))])
  /\ (forall st txt author music duration waktu,
        le_name st = Some a -> le_music st = Some b ->
        exists row,
          (padded a author = false -> padded b music = false ->
           content_features st v txt author music duration waktu = Ok [row])
          /\ (forall rows,
                content_features st v txt author music duration waktu = Ok rows ->
                rows = [row])
          /\ length row = (V + 7)%nat
          /\ take V row = map W (TfidfVectorizer.row_of v txt)
          /\ drop V row
             = [Num (sentinel_code a author); Num (sentinel_code b music); Num duration;
                Num (t_hour waktu); Num (t_minute waktu); Num (t_second waktu);
                Num (Z.of_nat (String.length txt))])
  /\ (forall format (r : RawRecord),
        length (bulk_row format a b v r) = (V + 7)%nat
        /\ take V (bulk_row format a b v r)
           = map W (TfidfVectorizer.row_of v (default "" (text r)))
        /\ drop V (bulk_row format a b v r)
           = [Num (sentinel_code a (str_of (author r)));
              Num (sentinel_code b (str_of (music r)));
              num_cell (duration r);
              num_cell (ts_hour <$> coerce_cell format (createTimeISO r));
              num_cell (ts_minute <$> coerce_cell format (createTimeISO r));
              num_cell (ts_second <$> coerce_cell format (createTimeISO r));
              Num (Z.of_nat (String.length (default "" (text r))))]).
Proof.
  intros Hpre V.
  apply preprocess_data_inv in Hpre as (_ & _ & Hv & _ & HX & _).
  apply fit_vocabulary_length in Hv as [HV Hpos].
  fold V in HV. change TfidfVectorizer.max_features with 100%nat in HV.
  assert (Hw : forall doc, length (map W (TfidfVectorizer.row_of v doc)) = V).
  { intros doc. by rewrite length_map, transform_width. }
  split_and!; [done|lia|lia|done| | |].
  - intros format r. unfold train_row. split_and!.
    + rewrite length_app, Hw. simpl. lia.
    + by rewrite take_app_length'.
    + by rewrite drop_app_length'.
  - intros st txt author music duration waktu Ha Hb.
    exists (content_row a b v txt author music duration waktu).
    unfold content_row at 3 4 5. split_and!.
    + by apply content_features_Ok.
    + intros rows. rewrite (content_features_cases st a b) by done.
      destruct (padded a author || padded b music); [done|]. by intros [= <-].
    + rewrite length_app, Hw. simpl. lia.
    + by rewrite take_app_length'.
    + by rewrite drop_app_length'.
  - intros format r. unfold bulk_row. split_and!.
    + rewrite length_app, Hw. simpl. lia.
    + by rewrite take_app_length'.
    + by rewrite drop_app_length'.
Qed.

Lemma C5_column_stability_witness :
  exists frame X y v a b,
    preprocess_data two_posts = Ok (frame, X, y, v, a, b)
    /\ length (TfidfVectorizer.vocabulary_ v) = 2%nat
    /\ X = map (train_row (table_format two_posts) a b v) (dropna two_posts)
    /\ (forall format r, length (train_row format a b v r) = 9%nat).
Proof.
  destruct (preprocess_data two_posts) as [[[[[[frame X] y] v] a] b]|] eqn:Hpre;
    [|vm_compute in Hpre; discriminate].
  exists frame, X, y, v, a, b. split; [done|].
  destruct (C5_column_stability two_posts frame X y v a b Hpre) as (HV & _ & HX & Hrow & _).
  assert (Hlen : length (TfidfVectorizer.vocabulary_ v) = 2%nat).
  { rewrite HV. vm_compute. reflexivity. }
  split_and!; [done|done|].
  intros format r. destruct (Hrow format r) as [-> _]. by rewrite Hlen.
Defined.

(** C5 fails as stated: fitted on the two posts, whose captions hold two
    distinct tokens, the rows are 9 columns wide, not 107. *)
Lemma C5_width_counterexample :
  exists frame X y v a b,
    preprocess_data two_posts = Ok (frame, X, y, v, a, b)
    /\ TfidfVectorizer.vocabulary_ v = ["dance"; "fyp"]
    /\ map length X = [9%nat; 9%nat]
    /\ 9%nat <> 107%nat.
Proof.
  eexists _, _, _, _, _, _. split; [vm_compute; reflexivity|].
  split_and!; [done|done|lia].
Qed.

(** C3 fails on the code. Fitted on the two posts, the vectorizer has the
    columns dance and fyp. The first post, whose caption is "dance #fyp",
    was fitted through its hashtags only and has the text block 0, 1; the
    same post given to single-record inference is vectorized from the whole
    caption and has the text block 1, 1. The seven numbers agree. *)
Theorem C3_inference_vectorizes_whole_caption :
  exists frame X y v a b,
    preprocess_data two_posts = Ok (frame, X, y, v, a, b)
    /\ TfidfVectorizer.vocabulary_ v = ["dance"; "fyp"]
    /\ hashtags_str "dance #fyp" = "#fyp"
    /\ X !! 0%nat = Some [W 0; W 1; Num 0; Num 0; Num 15; Num 10; Num 20; Num 30; Num 10]
    /\ content_features
         {| section := Some Prediksi; model := None; le_name := Some a;
            le_music := Some b; tfidf := Some v |}
         v "dance #fyp" "alice" "song" 15
         {| t_hour := 10; t_minute := 20; t_second := 30 |}
       = Ok [[W 1; W 1; Num 0; Num 0; Num 15; Num 10; Num 20; Num 30; Num 10]]
    /\ TfidfVectorizer.transform v ["dance #fyp"]
       <> TfidfVectorizer.transform v [hashtags_str "dance #fyp"].
Proof.
  eexists _, _, _, _, _, _. split; [vm_compute; reflexivity|].
  split_and!; done.
Qed.

(** ** Bulk inference *)

(** The batch gets as far as the classifier: its timestamps have one
    offset, and no author or music name is [padded]. *)
Definition reaches_classifier (a b : LabelEncoder.t) (batch : list RawRecord) : Prop :=
  one_timezone batch = true /\ padded_author a batch = false
  /\ padded_music b batch = false.

Lemma predict_bulk_classified (st : SessionState) (m : Classifier) (v : TfidfVectorizer.t)
    (a b : LabelEncoder.t) (df_input : positive)
    (h : gmap positive (gmap string column)) (batch : list RawRecord) :
  le_name st = Some a -> le_music st = Some b ->
  h !! df_input = Some (frame_of_rows batch) ->
  reaches_classifier a b batch ->
  predict_bulk st m v df_input h =
  match bulk_outcome m a b v batch with
  | Ok labels =>
      (Ok df_input,
       <[df_input := <["status_popularitas" :=
                         ObjCol (map (fun z => status_labels !! z) labels)]>
                     (prepared_frame a b batch)]> h)
  | Raise e => (Raise e, <[df_input := prepared_frame a b batch]> h)
  end.
Proof.
  intros Ha Hb Hh (Htz & Hpa & Hpb).
  by rewrite (predict_bulk_run st m v a b df_input h batch Ha Hb Hh), Htz, Hpa, Hpb.
Qed.

(** A record without a timestamp read in the format of the column or
    without a duration puts NaN into the feature matrix, and the classifier
    then rejects the whole batch; the frame keeps what was written
    before. *)
Lemma bulk_missing_value_raises (st : SessionState) (m : Classifier)
    (v : TfidfVectorizer.t) (a b : LabelEncoder.t) (df_input : positive)
    (h : gmap positive (gmap string column)) (batch : list RawRecord) (r : RawRecord) :
  le_name st = Some a -> le_music st = Some b ->
  h !! df_input = Some (frame_of_rows batch) ->
  reaches_classifier a b batch ->
  r ∈ batch ->
  duration r = None \/ coerce_cell (batch_format batch) (createTimeISO r) = None ->
  predict_bulk st m v df_input h
  = (Raise (ValueError "Input X contains NaN."),
     <[df_input := prepared_frame a b batch]> h).
Proof.
  intros Ha Hb Hh Hreach Hr Hnan.
  rewrite (predict_bulk_classified st m v a b df_input h batch Ha Hb Hh Hreach).
  assert (Hout : bulk_outcome m a b v batch
                 = predict m (map (bulk_row (batch_format batch) a b v) batch)).
  { destruct batch; [by apply elem_of_nil in Hr|done]. }
  rewrite Hout.
  rewrite (predict_nan m _ (bulk_row (batch_format batch) a b v r));
    [done| |by apply bulk_row_nan].
  apply list_elem_of_fmap. by exists r.
Qed.

(** C4 fails on the code. In the trained session, a batch of two records
    whose second timestamp does not parse gets no labeled row at all: the
    hour, minute and second of that record are NaN, not 0, the classifier
    rejects the matrix, the call raises and the frame has no
    status_popularitas column. *)
Theorem C4_unparseable_timestamp_fails_the_batch :
  exists h',
    predict_bulk trained_session demo_model demo_vectorizer 1%positive
                 {[ 1%positive := frame_of_rows bad_time_batch ]}
    = (Raise (ValueError "Input X contains NaN."), h')
    /\ (h' !!! 1%positive) !! "hour" = Some (NumCol [Some 10; None])
    /\ (h' !!! 1%positive) !! "minute" = Some (NumCol [Some 20; None])
    /\ (h' !!! 1%positive) !! "second" = Some (NumCol [Some 30; None])
    /\ (h' !!! 1%positive) !! "status_popularitas" = None.
Proof.
  eexists. split.
  - apply (bulk_missing_value_raises trained_session demo_model demo_vectorizer
             {| classes_ := ["alice"; "bob"] |} {| classes_ := ["song"] |}
             1%positive _ bad_time_batch
             {| text := Some "#fyp"; author := Some "carol"; music := Some "song";
                duration := Some 20; createTimeISO := no_date "kemarin sore" |});
      [done|done|apply lookup_singleton_eq|done| |by right].
    unfold bad_time_batch. rewrite !elem_of_cons. right. by left.
  - rewrite lookup_total_insert_eq.
    unfold prepared_frame, named_frame, timed_frame.
    split_and!; by frame_lookup.
Qed.

(** ** Unparseable and missing timestamps *)

Lemma dropna_has_timestamp (table : list TrainRecord) (c : CleanRecord) :
  c ∈ dropna table -> c_time c <> TNull.
Proof.
  unfold dropna. rewrite list_elem_of_omap. intros (r & _ & Hc).
  unfold complete in Hc.
  destruct (text (post r)), (author (post r)), (music (post r)), (duration (post r)),
    (other_columns_filled r); simpl in Hc; try done.
  destruct (createTimeISO (post r)) eqn:Ht; inversion Hc; by subst.
Qed.

(** The training table with a third post whose timestamp does not parse. *)
Definition bad_time_table : list TrainRecord :=
  two_posts ++
  [ {| post := {| text := Some "#fyp"; author := Some "carol"; music := Some "song";
                  duration := Some 20;
                  createTimeISO := no_date "kemarin sore" |};
       diggCount := 1; shareCount := 1; commentCount := 1; playCount := 1;
       other_columns_filled := true |} ].

(** The vectorizer accepts a corpus that holds a token. *)
Lemma fit_transform_tokens (docs : list string) :
  corpus_terms docs <> [] ->
  exists v, TfidfVectorizer.fit_transform docs
            = Ok (v, map (TfidfVectorizer.row_of v) docs).
Proof.
  intros Hterms. unfold TfidfVectorizer.fit_transform, TfidfVectorizer.fit.
  fold (corpus_terms docs).
  destruct (corpus_terms docs) as [|t0 terms] eqn:Ht; [done|].
  eexists. cbn [rbind].
  assert (Hdocs : docs <> []) by (intros ->; by rewrite Ht in Hterms || done).
  by destruct docs.
Qed.

(** Preprocessing raises whenever a kept timestamp cannot be read in the
    format of the column: such a row is not excluded. *)
Lemma preprocess_unreadable_raises (table : list TrainRecord) :
  ~ Forall (readable (table_format table)) (map c_time (dropna table)) ->
  exists e, preprocess_data table = Raise e.
Proof.
  intros Hbad. unfold preprocess_data.
  rewrite !fit_transform_Ok. cbn [mbind result_bind rbind].
  set (docs := map (fun r => hashtags_str (c_text r)) (dropna table)).
  destruct (corpus_terms docs) as [|t0 terms] eqn:Hterms.
  - unfold TfidfVectorizer.fit_transform, TfidfVectorizer.fit.
    fold (corpus_terms docs). rewrite Hterms. by eexists.
  - destruct (fit_transform_tokens docs) as [v ->]; [by rewrite Hterms|].
    cbn [mbind result_bind rbind].
    destruct (read_cells_raise _ _ Hbad) as (before & c & after & _ & _ & _ & Hrun).
    unfold to_datetime. fold (table_format table). rewrite Hrun.
    cbn [mbind result_bind rbind]. by eexists.
Qed.

(** C9 fails on the code. The training table of the two posts and a third
    whose timestamp is the text "kemarin sore" keeps all three rows after
    [dropna], and preprocessing raises on the third instead of excluding
    it, while it accepts the table of the two posts alone; and so for every
    table with a kept timestamp that cannot be read. The conversion of
    bulk inference, asked with [errors='coerce'], turns the same column
    into two timestamps and NaT; in a batch with such a record, the record
    gets the missing-value marker in hour, minute and second (no day of
    the week is derived), and the batch then fails at the classifier. *)
Theorem C9_unparseable_timestamp_fails_training :
  length (dropna bad_time_table) = 3%nat
  /\ preprocess_data bad_time_table
     = Raise (unparsed (no_date "kemarin sore"))
  /\ (exists frame X y v a b, preprocess_data two_posts = Ok (frame, X, y, v, a, b))
  /\ (forall table,
        ~ Forall (readable (table_format table)) (map c_time (dropna table)) ->
        exists e, preprocess_data table = Raise e)
  /\ to_datetime_coerce (map c_time (dropna bad_time_table))
     = Ok [Some wednesday_morning; Some wednesday_morning; None]
  /\ exists h',
       predict_bulk trained_session demo_model demo_vectorizer 1%positive
                    {[ 1%positive := frame_of_rows bad_time_batch ]}
       = (Raise (ValueError "Input X contains NaN."), h')
       /\ (h' !!! 1%positive) !! "hour" = Some (NumCol [Some 10; None])
       /\ (h' !!! 1%positive) !! "minute" = Some (NumCol [Some 20; None])
       /\ (h' !!! 1%positive) !! "second" = Some (NumCol [Some 30; None])
       /\ (h' !!! 1%positive) !! "day" = None.
Proof.
  split_and!; [by vm_compute|by vm_compute| |apply preprocess_unreadable_raises
              |by vm_compute|].
  - eexists _, _, _, _, _, _. vm_compute. reflexivity.
  - eexists. split.
    + apply (bulk_missing_value_raises trained_session demo_model demo_vectorizer
               {| classes_ := ["alice"; "bob"] |} {| classes_ := ["song"] |}
               1%positive _ bad_time_batch
               {| text := Some "#fyp"; author := Some "carol"; music := Some "song";
                  duration := Some 20; createTimeISO := no_date "kemarin sore" |});
        [done|done|apply lookup_singleton_eq|done| |by right].
      unfold bad_time_batch. rewrite !elem_of_cons. right. by left.
    + rewrite lookup_total_insert_eq.
      unfold prepared_frame, named_frame, timed_frame, texted_frame, frame_of_rows.
      split_and!; by frame_lookup.
Qed.

(** ** The frame effect of bulk inference *)

(** The facts about a frame that follow by looking its columns up. *)
Ltac frame_facts :=
  repeat first
    [ progress intros
    | match goal with H : _ /\ _ |- _ => destruct H end
    | split
    | by frame_lookup
    | done
    | by eexists
    | congruence ].

Lemma bulk_outcome_Ok (m : Classifier) (a b : LabelEncoder.t) (v : TfidfVectorizer.t)
    (batch : list RawRecord) :
  batch <> [] ->
  (forall r, r ∈ batch ->
     duration r <> None /\ coerce_cell (batch_format batch) (createTimeISO r) <> None) ->
  n_features_in_ m = (length (TfidfVectorizer.vocabulary_ v) + 7)%nat ->
  bulk_outcome m a b v batch
  = Ok (map (fun r => label_of m (bulk_row (batch_format batch) a b v r)) batch).
Proof.
  intros Hne Hrows Hn.
  assert (bulk_outcome m a b v batch
          = predict m (map (bulk_row (batch_format batch) a b v) batch)) as ->
    by (by destruct batch).
  rewrite predict_Ok, map_map; [done|by destruct batch|].
  intros row Hrow. apply list_elem_of_fmap in Hrow as (r & -> & Hr).
  split; [|by rewrite bulk_row_length].
  rewrite bulk_row_nan. destruct (Hrows r Hr). tauto.
Qed.

Lemma predict_labels (m : Classifier) (X : list (list cell)) (labels : list Z) :
  predict m X = Ok labels -> labels = map (label_of m) X.
Proof.
  unfold predict. destruct (existsb (existsb is_nan) X); [done|].
  destruct X as [|x X']; [done|].
  destruct (forallb _ (x :: X')); [|done]. by intros [= <-].
Qed.

Lemma bulk_outcome_labels (m : Classifier) (a b : LabelEncoder.t)
    (v : TfidfVectorizer.t) (batch : list RawRecord) (labels : list Z) :
  bulk_outcome m a b v batch = Ok labels ->
  labels = map (fun r => label_of m (bulk_row (batch_format batch) a b v r)) batch.
Proof.
  destruct batch as [|r batch]; [done|]. unfold bulk_outcome.
  intros Hl%predict_labels. by rewrite map_map in Hl.
Qed.

(** C10, as the code has it. Called in a fitted session on the frame of any
    batch, bulk inference changes that frame object and no other: text is
    overwritten and text_length added, the three other input columns stay,
    so the frame is no longer the one the caller passed. When the
    timestamps have one offset from UTC, createTimeISO is overwritten and
    hour, minute and second are added; when moreover no author is a fitted
    class followed by U+0000 characters, the encoded author column is
    added, and likewise then the encoded music column. Otherwise the call
    raises. When the call returns, it returns the same object, and the
    frame also has status_popularitas, one label per record in the order
    of the batch; when it raises, that column is absent. It returns
    whenever, beyond the above, the batch is not empty, no record lacks a
    duration or a timestamp read in the format of the column, and the
    classifier was fitted on as many columns as the rows have. *)
Theorem C10_bulk_mutates_in_place (st : SessionState) (m : Classifier)
    (v : TfidfVectorizer.t) (a b : LabelEncoder.t) (df_input : positive)
    (h : gmap positive (gmap string column)) (batch : list RawRecord) :
  le_name st = Some a -> le_music st = Some b ->
  h !! df_input = Some (frame_of_rows batch) ->
  let stamp r := coerce_cell (batch_format batch) (createTimeISO r) in
  exists res F,
    predict_bulk st m v df_input h = (res, <[df_input := F]> h)
    /\ F <> frame_of_rows batch
    /\ F !! "text" = Some (ObjCol (map (fun r => Some (default "" (text r))) batch))
    /\ F !! "text_length"
       = Some (NumCol (map (fun r => Some (Z.of_nat (String.length (default "" (text r)))))
                           batch))
    /\ F !! "authorMeta.name" = Some (ObjCol (map author batch))
    /\ F !! "musicMeta.musicName" = Some (ObjCol (map music batch))
    /\ F !! "videoMeta.duration" = Some (NumCol (map duration batch))
    /\ (one_timezone batch = false -> exists e, res = Raise e)
    /\ (one_timezone batch = true ->
          F !! "createTimeISO" = Some (DatetimeCol (map stamp batch))
          /\ F !! "hour" = Some (NumCol (map (fun r => ts_hour <$> stamp r) batch))
          /\ F !! "minute" = Some (NumCol (map (fun r => ts_minute <$> stamp r) batch))
          /\ F !! "second" = Some (NumCol (map (fun r => ts_second <$> stamp r) batch))
          /\ (padded_author a batch = true -> res = Raise unseen_labels)
          /\ (padded_author a batch = false ->
                F !! "authorMeta.name_encoded"
                = Some (NumCol (map (fun r => Some (sentinel_code a (str_of (author r))))
                                    batch))
                /\ (padded_music b batch = true -> res = Raise unseen_labels)
                /\ (padded_music b batch = false ->
                      F !! "musicMeta.musicName_encoded"
                      = Some (NumCol (map (fun r => Some (sentinel_code b (str_of (music r))))
                                          batch)))))
    /\ (forall r, res = Ok r ->
          r = df_input
          /\ reaches_classifier a b batch
          /\ F !! "status_popularitas"
             = Some (ObjCol (map (fun rec => status_labels
                                             !! label_of m (bulk_row (batch_format batch)
                                                              a b v rec))
                                 batch)))
    /\ (forall e, res = Raise e -> F !! "status_popularitas" = None)
    /\ (reaches_classifier a b batch -> batch <> [] ->
        (forall r, r ∈ batch -> duration r <> None /\ stamp r <> None) ->
        n_features_in_ m = (length (TfidfVectorizer.vocabulary_ v) + 7)%nat ->
        res = Ok df_input).
Proof.
  intros Ha Hb Hh stamp.
  pose proof (predict_bulk_run st m v a b df_input h batch Ha Hb Hh) as Hrun.
  pose proof (bulk_outcome_Ok m a b v batch) as Hok.
  assert (Hnew : forall F : gmap string column,
            is_Some (F !! "text_length") -> F <> frame_of_rows batch).
  { intros F [c Hc] ->. by unfold frame_of_rows in Hc; frame_lookup. }
  unfold reaches_classifier.
  destruct (one_timezone batch) eqn:Htz; cbn [negb] in Hrun.
  2: { exists (Raise mixed_timezones), (texted_frame batch).
       split; [done|]. split.
       { apply Hnew. unfold texted_frame. frame_lookup. by eexists. }
       unfold texted_frame, frame_of_rows.
       split_and!; solve [frame_facts]. }
  destruct (padded_author a batch) eqn:Hpa.
  { exists (Raise unseen_labels), (timed_frame batch).
    split; [done|]. split.
    { apply Hnew. unfold timed_frame, texted_frame. frame_lookup. by eexists. }
    unfold timed_frame, texted_frame, frame_of_rows.
    split_and!; solve [frame_facts]. }
  destruct (padded_music b batch) eqn:Hpb.
  { exists (Raise unseen_labels), (named_frame a batch).
    split; [done|]. split.
    { apply Hnew. unfold named_frame, timed_frame, texted_frame. frame_lookup. by eexists. }
    unfold named_frame, timed_frame, texted_frame, frame_of_rows.
    split_and!; solve [frame_facts]. }
  destruct (bulk_outcome m a b v batch) as [labels|e] eqn:Hout.
  - exists (Ok df_input),
      (<["status_popularitas" := ObjCol (map (fun z => status_labels !! z) labels)]>
         (prepared_frame a b batch)).
    split; [done|]. split.
    { apply Hnew. unfold prepared_frame, named_frame, timed_frame, texted_frame.
      frame_lookup. by eexists. }
    unfold prepared_frame, named_frame, timed_frame, texted_frame, frame_of_rows.
    split_and!; try solve [frame_facts].
    intros r [= <-]. split_and!; try done. frame_lookup. do 2 f_equal.
    apply bulk_outcome_labels in Hout as ->. by rewrite map_map.
  - exists (Raise e), (prepared_frame a b batch).
    split; [done|]. split.
    { apply Hnew. unfold prepared_frame, named_frame, timed_frame, texted_frame.
      frame_lookup. by eexists. }
    unfold prepared_frame, named_frame, timed_frame, texted_frame, frame_of_rows.
    split_and!; try solve [frame_facts].
    intros _ Hne Hrows Hn. by specialize (Hok Hne Hrows Hn).
Qed.

(** A batch of one record that the classifier accepts. *)
Definition good_batch : list RawRecord :=
  [ {| text := None; author := Some "carol"; music := Some "song";
       duration := Some 15;
       createTimeISO := iso_text "2024-01-03T10:20:30" wednesday_morning |} ].

Lemma C10_bulk_mutates_witness :
  exists F,
    predict_bulk trained_session demo_model demo_vectorizer 1%positive
                 {[ 1%positive := frame_of_rows good_batch ]}
    = (Ok 1%positive, <[ 1%positive := F ]> {[ 1%positive := frame_of_rows good_batch ]})
    /\ F <> frame_of_rows good_batch
    /\ F !! "text" = Some (ObjCol [Some ""])
    /\ F !! "authorMeta.name_encoded" = Some (NumCol [Some (-1)])
    /\ F !! "status_popularitas" = Some (ObjCol [Some "🔥 Populer"]).
Proof.
  destruct (C10_bulk_mutates_in_place trained_session demo_model demo_vectorizer
              {| classes_ := ["alice"; "bob"] |} {| classes_ := ["song"] |} 1%positive
              {[ 1%positive := frame_of_rows good_batch ]} good_batch
              eq_refl eq_refl (lookup_singleton_eq _ _))
    as (res & F & Hrun & Hnew & Htext & _ & _ & _ & _ & _ & Hcols & Hret & _ & Hacc).
  assert (Hres : res = Ok 1%positive).
  { apply Hacc; [done|done| |done].
    intros r Hr. apply list_elem_of_singleton in Hr as ->. done. }
  subst res. destruct (Hret 1%positive eq_refl) as (_ & _ & Hstatus).
  destruct (Hcols eq_refl) as (_ & _ & _ & _ & _ & Hname).
  destruct (Hname eq_refl) as (Hcode & _).
  exists F. split_and!; done.
Defined.

(** C10 fails as stated: on a batch without records the call raises before
    the classifier is asked; it returns no object, and the caller's frame,
    already changed, has no status_popularitas column. *)
Lemma C10_empty_batch_counterexample :
  exists F,
    predict_bulk trained_session demo_model demo_vectorizer 1%positive
                 {[ 1%positive := frame_of_rows [] ]}
    = (Raise (ValueError "Found array with 0 sample(s) while a minimum of 1 is required by TfidfTransformer."),
       <[ 1%positive := F ]> {[ 1%positive := frame_of_rows [] ]})
    /\ F !! "status_popularitas" = None
    /\ F !! "text_length" = Some (NumCol [])
    /\ F <> frame_of_rows [].
Proof.
  exists (prepared_frame {| classes_ := ["alice"; "bob"] |} {| classes_ := ["song"] |} []).
  split.
  - by rewrite (predict_bulk_run trained_session demo_model demo_vectorizer
               {| classes_ := ["alice"; "bob"] |} {| classes_ := ["song"] |} 1%positive
               _ [] eq_refl eq_refl (lookup_singleton_eq _ _)).
  - unfold prepared_frame, named_frame, timed_frame, texted_frame.
    split_and!; by frame_lookup.
Qed.

(** ** The gate of the prediction page and the fitted session *)

(** The page a run shows: the one of the pressed sidebar button, else the
    one the session remembers, else the first. *)
Definition resolved_section (ui : Ui) (st : SessionState) : section_name :=
  match sidebar ui with
  | Some s => s
  | None => default EDA (section st)
  end.

(** The artifacts of a session belong together: with a classifier there
    are both encoders and the vectorizer, and the classifier was fitted on
    rows as wide as the ones they produce. *)
Definition fitted (st : SessionState) : Prop :=
  forall m, model st = Some m ->
    exists a b v, le_name st = Some a /\ le_music st = Some b /\ tfidf st = Some v
                  /\ n_features_in_ m = (length (TfidfVectorizer.vocabulary_ v) + 7)%nat.

Lemma fit_nonempty (raw_documents : list string) (v : TfidfVectorizer.t) :
  TfidfVectorizer.fit raw_documents = Ok v -> raw_documents <> [].
Proof. by intros Hv ->. Qed.

Lemma preprocess_width (df : list TrainRecord) (frame : TrainFrame)
    (X : list (list cell)) (y : list Z) (v : TfidfVectorizer.t) (a b : LabelEncoder.t) :
  preprocess_data df = Ok (frame, X, y, v, a, b) ->
  width X = (length (TfidfVectorizer.vocabulary_ v) + 7)%nat.
Proof.
  intros Hpre. apply preprocess_data_inv in Hpre as (_ & _ & Hv & _ & -> & _).
  apply fit_nonempty in Hv.
  destruct (dropna df) as [|r kept]; [done|]. simpl.
  unfold train_row. rewrite length_app, length_map, transform_width. simpl. lia.
Qed.

Section Sessions.

Variable learner : list (list cell) -> list Z -> result (list cell -> bool).

Lemma main_section (ui : Ui) (st : SessionState) :
  section (main learner ui st).2 = Some (resolved_section ui st).
Proof.
  unfold main, resolved_section.
  destruct (sidebar ui) as [s|], (section st) as [s'|] eqn:Hs; simpl; rewrite ?Hs;
    destruct (data_csv ui) as [[|r df]|]; try done;
    destruct (preprocess_data (r :: df)) as [[[[[[frame X] y] v] a] b]|]; try done.
  all: try (destruct s; try done).
  all: try (destruct s'; try done).
  all: try (destruct (train_and_evaluate learner X y); done).
  all: try (destruct (model _); [by destruct (prediction_tabs _ _)|done]).
Qed.

Lemma main_fitted (ui : Ui) (st : SessionState) :
  fitted st -> fitted (main learner ui st).2.
Proof.
  intros Hst.
  assert (Hset : forall s, fitted (set_section s st)) by (intros s; exact Hst).
  unfold main.
  set (st1 := match sidebar ui with Some s => set_section s st | None => st end).
  assert (H1 : fitted st1) by (unfold st1; by destruct (sidebar ui)).
  set (st2 := match section st1 with None => set_section EDA st1 | Some _ => st1 end).
  assert (H2 : fitted st2) by (unfold st2; by destruct (section st1)).
  clearbody st2. clear st1 H1 Hset Hst.
  destruct (data_csv ui) as [[|r df]|]; try done.
  destruct (preprocess_data (r :: df)) as [[[[[[frame X] y] v] a] b]|] eqn:Hpre; [|done].
  destruct (section st2) as [[| | |]|]; try done.
  - unfold train_and_evaluate.
    destruct (learner X y) as [f|]; [|done]. cbn.
    intros m [= <-]. exists a, b, v. split_and!; try done.
    cbn. by eapply preprocess_width.
  - destruct (model st2); [|done]. by destruct (prediction_tabs ui st2).
Qed.

Lemma reachable_fitted (st : SessionState) : reachable learner st -> fitted st.
Proof.
  induction 1 as [|ui st _ IH]; [done|]. by apply main_fitted.
Qed.


Lemma predict_content_fitted (st : SessionState) (m : Classifier)
    (v : TfidfVectorizer.t) (txt author music : string) (duration : Z)
    (waktu : time_of_day) :
  fitted st -> model st = Some m -> tfidf st = Some v ->
  exists a b,
    le_name st = Some a /\ le_music st = Some b
    /\ predict_content st m v txt author music duration waktu
       = if padded a author || padded b music then Raise unseen_labels
         else Ok (label_of m (content_row a b v txt author music duration waktu)).
Proof.
  intros Hfit Hm Hv. destruct (Hfit m Hm) as (a & b & v' & Ha & Hb & Hv' & Hn).
  assert (v' = v) as -> by congruence.
  exists a, b. split_and!; [done|done|].
  unfold predict_content.
  rewrite (content_features_cases st a b v) by done.
  destruct (padded a author || padded b music); [done|].
  cbn [mbind result_bind rbind].
  rewrite predict_Ok; [done|done|].
  intros row Hrow. apply list_elem_of_singleton in Hrow as ->. split.
  - unfold content_row. rewrite elem_of_app, list_elem_of_fmap, !elem_of_cons, elem_of_nil.
    intros [(n & ? & _)|[?|[?|[?|[?|[?|[?|[?|[]]]]]]]]]; done.
  - unfold content_row. rewrite length_app, length_map, transform_width, Hn. simpl. lia.
Qed.

End Sessions.

(** ** Authors and music names outside the fitted classes *)



Lemma padded_author_plain (a : LabelEncoder.t) (batch : list RawRecord) :
  (forall r, r ∈ batch -> rstrip_nul (str_of (author r)) = str_of (author r)) ->
  padded_author a batch = false.
Proof.
  intros Hall. apply not_true_is_false. unfold padded_author.
  rewrite existsb_exists. intros (r & Hr & Hp).
  apply list_elem_of_In in Hr. by rewrite (padded_plain a _ (Hall r Hr)) in Hp.
Qed.

Lemma padded_music_plain (b : LabelEncoder.t) (batch : list RawRecord) :
  (forall r, r ∈ batch -> rstrip_nul (str_of (music r)) = str_of (music r)) ->
  padded_music b batch = false.
Proof.
  intros Hall. apply not_true_is_false. unfold padded_music.
  rewrite existsb_exists. intros (r & Hr & Hp).
  apply list_elem_of_In in Hr. by rewrite (padded_plain b _ (Hall r Hr)) in Hp.
Qed.





(** A run of the prediction page with the single-record button pressed. *)
Definition press_predict : Ui :=
  {| sidebar := Some Prediksi; data_csv := Some two_posts;
     in_text := "new #trend"; in_author := "carol"; in_music := "unheard";
     in_duration := 30; in_waktu := noon; click_single := true;
     uploaded_file := None; manual_data := []; today := 0; click_manual := false |}.



(** * Further properties of the program *)

(** ** Single-record and bulk inference on the same record *)

Lemma bulk_row_content_row (format : option string) (a b : LabelEncoder.t)
    (v : TfidfVectorizer.t) (r : RawRecord) (txt author' music' : string) (d : Z)
    (ts : Timestamp) :
  text r = Some txt -> author r = Some author' -> music r = Some music' ->
  duration r = Some d -> coerce_cell format (createTimeISO r) = Some ts ->
  bulk_row format a b v r
  = content_row a b v txt author' music' d
      {| t_hour := ts_hour ts; t_minute := ts_minute ts; t_second := ts_second ts |}.
Proof.
  intros Ht Ha Hm Hd Hts. unfold bulk_row, content_row.
  by rewrite Ht, Ha, Hm, Hd, Hts.
Qed.

Lemma one_timezone_single (r : RawRecord) : one_timezone [r] = true.
Proof.
  unfold one_timezone, same_utcoffset. cbn [map omap].
  by destruct (coerce_cell _ _).
Qed.

(** X1. The two inference paths agree on a record: with both encoders in
    the session, bulk inference on the one-row frame of a complete record
    returns exactly when single-record inference on the same text, author,
    music, duration and time of day returns, raises the same exception
    when it does not, and writes the display label of the same class. *)
Theorem bulk_agrees_with_single (st : SessionState) (m : Classifier)
    (v : TfidfVectorizer.t) (a b : LabelEncoder.t) (df_input : positive)
    (h : gmap positive (gmap string column)) (r : RawRecord)
    (txt author' music' : string) (d : Z) (ts : Timestamp) :
  le_name st = Some a -> le_music st = Some b ->
  h !! df_input = Some (frame_of_rows [r]) ->
  text r = Some txt -> author r = Some author' -> music r = Some music' ->
  duration r = Some d -> to_datetime_coerce [createTimeISO r] = Ok [Some ts] ->
  let single :=
    predict_content st m v txt author' music' d
      {| t_hour := ts_hour ts; t_minute := ts_minute ts; t_second := ts_second ts |} in
  exists F,
    predict_bulk st m v df_input h
    = (rbind single (fun _ => Ok df_input), <[df_input := F]> h)
    /\ (forall label, single = Ok label ->
          F !! "status_popularitas" = Some (ObjCol [status_labels !! label])).
Proof.
  intros Ha Hb Hh Ht Hau Hmu Hd Hts single.
  assert (Hstamp : coerce_cell (batch_format [r]) (createTimeISO r) = Some ts).
  { apply to_datetime_coerce_Ok in Hts as [Hts _]. unfold batch_format.
    cbn [map] in *. congruence. }
  rewrite (predict_bulk_run st m v a b df_input h [r] Ha Hb Hh).
  rewrite one_timezone_single. cbn [negb].
  unfold single, predict_content, padded_author, padded_music. cbn [existsb].
  rewrite (content_features_cases st a b v) by done.
  rewrite Hau, Hmu, !orb_false_r.
  change (str_of (Some author')) with author'.
  change (str_of (Some music')) with music'.
  destruct (padded a author'); cbn [orb mbind result_bind rbind].
  { eexists. split; [reflexivity|done]. }
  destruct (padded b music'); cbn [mbind result_bind rbind].
  { eexists. split; [reflexivity|done]. }
  cbn [bulk_outcome map].
  rewrite (bulk_row_content_row _ a b v r txt author' music' d ts) by done.
  destruct (predict m [_]) as [labels|e] eqn:Hp.
  - apply predict_labels in Hp as ->. cbn [map item0 rbind].
    eexists. split; [reflexivity|].
    intros label [= <-]. by rewrite lookup_insert_eq.
  - cbn [rbind]. eexists. split; [reflexivity|]. by intros label.
Qed.

Lemma bulk_agrees_with_single_witness :
  exists F,
    predict_bulk trained_session demo_model demo_vectorizer 1%positive
                 {[ 1%positive := frame_of_rows
                      [ {| text := Some "new #fyp"; author := Some "carol";
                           music := Some "song"; duration := Some 30;
                           createTimeISO := TStamp wednesday_morning |} ] ]}
    = (Ok 1%positive,
       <[ 1%positive := F ]>
         {[ 1%positive := frame_of_rows
              [ {| text := Some "new #fyp"; author := Some "carol";
                   music := Some "song"; duration := Some 30;
                   createTimeISO := TStamp wednesday_morning |} ] ]})
    /\ F !! "status_popularitas" = Some (ObjCol [Some "🔥 Populer"]).
Proof.
  destruct (bulk_agrees_with_single trained_session demo_model demo_vectorizer
              {| classes_ := ["alice"; "bob"] |} {| classes_ := ["song"] |} 1%positive
              {[ 1%positive := frame_of_rows
                   [ {| text := Some "new #fyp"; author := Some "carol";
                        music := Some "song"; duration := Some 30;
                        createTimeISO := TStamp wednesday_morning |} ] ]}
              {| text := Some "new #fyp"; author := Some "carol";
                 music := Some "song"; duration := Some 30;
                 createTimeISO := TStamp wednesday_morning |}
              "new #fyp" "carol" "song" 30 wednesday_morning
              eq_refl eq_refl (lookup_singleton_eq _ _)
              eq_refl eq_refl eq_refl eq_refl eq_refl)
    as (F & Hrun & Hlabel).
  exists F. split; [exact Hrun|]. by apply (Hlabel 1).
Defined.

(** ** Values outside the fitted classes *)

(** X2. The classifier cannot tell unseen values apart: with an author
    encoder in the session, single-record inference gives two authors that
    are both outside its classes, also without the U+0000 characters at
    their end, the same outcome, whatever the other inputs; likewise for
    two such music names. *)
Theorem unseen_values_indistinguishable (st : SessionState) (m : Classifier)
    (v : TfidfVectorizer.t) (txt : string) (duration : Z) (waktu : time_of_day) :
  (forall a author1 author2 music,
      le_name st = Some a ->
      rstrip_nul author1 ∉ classes_ a -> rstrip_nul author2 ∉ classes_ a ->
      predict_content st m v txt author1 music duration waktu
      = predict_content st m v txt author2 music duration waktu)
  /\ (forall b author music1 music2,
        le_music st = Some b ->
        rstrip_nul music1 ∉ classes_ b -> rstrip_nul music2 ∉ classes_ b ->
        predict_content st m v txt author music1 duration waktu
        = predict_content st m v txt author music2 duration waktu).
Proof.
  assert (Hcode : forall le x, rstrip_nul x ∉ classes_ le ->
            encode_or_sentinel le x = Ok (-1)).
  { intros le x Hx. rewrite encode_or_sentinel_cases.
    by destruct (sentinel_code_outside le x Hx) as [-> ->]. }
  split.
  - intros a author1 author2 music Ha H1 H2.
    unfold predict_content, content_features. rewrite Ha.
    cbn [attr mbind result_bind rbind]. by rewrite !Hcode.
  - intros b author music1 music2 Hb H1 H2.
    unfold predict_content, content_features. rewrite Hb.
    destruct (attr "le_name" (le_name st)) as [a|]; [|done].
    cbn [attr mbind result_bind rbind].
    destruct (encode_or_sentinel a author); [|done].
    cbn [rbind]. by rewrite !Hcode.
Qed.

Lemma unseen_values_indistinguishable_witness :
  predict_content trained_session demo_model demo_vectorizer "new #trend"
    "carol" "song" 30 noon
  = predict_content trained_session demo_model demo_vectorizer "new #trend"
      "dave" "song" 30 noon.
Proof.
  destruct (unseen_values_indistinguishable trained_session demo_model demo_vectorizer
              "new #trend" 30 noon) as [Hauthor _].
  apply (Hauthor {| classes_ := ["alice"; "bob"] |}); [reflexivity| |];
    cbn [classes_ rstrip_nul]; rewrite !elem_of_cons, elem_of_nil; intros [|[|]]; done.
Defined.

(** ** Frames without the expected columns *)

Lemma getitem_missing (df : positive) (key : string) (F : gmap string column)
    (h : gmap positive (gmap string column)) :
  F !! key = None ->
  getitem df key (<[df := F]> h) = (Raise (KeyError key), <[df := F]> h).
Proof. intros Hc. unfold getitem. by rewrite lookup_total_insert_eq, Hc. Qed.

(** X3. Bulk inference on a frame that lacks a column raises a KeyError
    naming it and is not undone: without a text column the frame is left
    as it was, but without a createTimeISO column the call fails after it
    has overwritten text and added text_length to the caller's frame. *)
Theorem bulk_missing_column (st : SessionState) (m : Classifier)
    (v : TfidfVectorizer.t) (df_input : positive) (F : gmap string column)
    (h : gmap positive (gmap string column)) :
  (F !! "text" = None ->
   predict_bulk st m v df_input (<[df_input := F]> h)
   = (Raise (KeyError "text"), <[df_input := F]> h))
  /\ (forall l, F !! "text" = Some (ObjCol l) -> F !! "createTimeISO" = None ->
        predict_bulk st m v df_input (<[df_input := F]> h)
        = (Raise (KeyError "createTimeISO"),
           <[df_input :=
               <["text_length" :=
                   NumCol (map (fun s => Some (Z.of_nat (String.length s)))
                               (map (default "") l))]>
               (<["text" := ObjCol (map Some (map (default "") l))]> F)]> h)).
Proof.
  split.
  - intros Ht. unfold predict_bulk.
    erewrite run_bind_raise; [done|]. by apply getitem_missing.
  - intros l Ht Hc. unfold predict_bulk.
    erewrite run_bind; [|by apply getitem_at]. cbv beta.
    run_pure. run_set. run_set.
    erewrite run_bind_raise; [done|].
    apply getitem_missing. by rewrite !lookup_insert_ne.
Qed.

Lemma bulk_missing_column_witness :
  predict_bulk trained_session demo_model demo_vectorizer 1%positive
    (<[1%positive := {["authorMeta.name" := ObjCol [Some "alice"]]}]> ∅)
  = (Raise (KeyError "text"),
     <[1%positive := {["authorMeta.name" := ObjCol [Some "alice"]]}]> ∅).
Proof.
  destruct (bulk_missing_column trained_session demo_model demo_vectorizer 1%positive
              {["authorMeta.name" := ObjCol [Some "alice"]]} ∅) as [Htext _].
  apply Htext. reflexivity.
Defined.

(** ** The outcomes of preprocessing *)

Lemma to_datetime_cases (l : list time_cell) :
  (exists before c after,
      l = (before ++ c :: after)%list
      /\ Forall (readable (column_format l)) before /\ ~ readable (column_format l) c
      /\ to_datetime l
         = Raise (unparsed c))
  \/ (Forall (readable (column_format l)) l
      /\ same_utcoffset (map (coerce_cell (column_format l)) l) = false
      /\ to_datetime l = Raise mixed_timezones)
  \/ (Forall (readable (column_format l)) l
      /\ same_utcoffset (map (coerce_cell (column_format l)) l) = true
      /\ to_datetime l = Ok (map (coerce_cell (column_format l)) l)).
Proof.
  unfold to_datetime.
  destruct (decide (Forall (readable (column_format l)) l)) as [Hall|Hbad].
  - right. rewrite (read_cells_readable _ _ Hall). cbn [rbind].
    destruct (same_utcoffset _) eqn:Hsame; [right|left]; by split_and!.
  - left. destruct (read_cells_raise _ _ Hbad) as (before & c & after & Heq & Hb & Hc & Hrun).
    exists before, c, after. rewrite Hrun. by split_and!.
Qed.

(** X4. Preprocessing has exactly four outcomes, decided by the rows that
    [dropna] keeps. When no kept caption holds a hashtag token (a table
    without kept rows included), it raises "empty vocabulary". Otherwise,
    when some kept timestamp cannot be read in the format of the column,
    it raises on the first such text. Otherwise, when the timestamps do
    not have one offset from UTC, it raises on that. Otherwise it
    succeeds. *)
Theorem preprocess_data_outcome (df : list TrainRecord) :
  let kept := dropna df in
  let docs := map (fun r => hashtags_str (c_text r)) kept in
  let format := table_format df in
  let times := map c_time kept in
  (corpus_terms docs = []
   /\ preprocess_data df
      = Raise (ValueError "empty vocabulary; perhaps the documents only contain stop words"))
  \/ (corpus_terms docs <> []
      /\ exists before c after,
           times = (before ++ c :: after)%list
           /\ Forall (readable format) before /\ ~ readable format c
           /\ preprocess_data df
              = Raise (unparsed c))
  \/ (corpus_terms docs <> []
      /\ Forall (readable format) times
      /\ same_utcoffset (map (coerce_cell format) times) = false
      /\ preprocess_data df = Raise mixed_timezones)
  \/ (corpus_terms docs <> []
      /\ Forall (readable format) times
      /\ same_utcoffset (map (coerce_cell format) times) = true
      /\ exists frame X y v a b, preprocess_data df = Ok (frame, X, y, v, a, b)).
Proof.
  intros kept docs format times. unfold preprocess_data. fold kept.
  rewrite !fit_transform_Ok. cbn [mbind result_bind rbind]. fold docs.
  destruct (corpus_terms docs) as [|t0 terms] eqn:Hterms.
  { left. split; [done|].
    unfold TfidfVectorizer.fit_transform, TfidfVectorizer.fit.
    fold (corpus_terms docs). by rewrite Hterms. }
  right.
  destruct (fit_transform_tokens docs) as [v ->]; [by rewrite Hterms|].
  cbn [mbind result_bind rbind].
  destruct (to_datetime_cases (map c_time kept))
    as [(before & c & after & Heq & Hb & Hc & ->)|[(Hall & Hsame & ->)|(Hall & Hsame & ->)]].
  - left. split; [done|]. by exists before, c, after.
  - right. left. by split_and!.
  - right. right. split_and!; try done.
    cbn [mbind result_bind rbind]. unfold dt, docs. rewrite !map_map.
    rewrite (as_matrix_rows
               (fun r => Num (fitted_code (LabelEncoder.fit (map c_author kept)) (c_author r)))
               (fun r => Num (fitted_code (LabelEncoder.fit (map c_music kept)) (c_music r)))
               (fun r => Num (c_duration r))
               (fun r => num_cell (ts_hour <$> coerce_cell format (c_time r)))
               (fun r => num_cell (ts_minute <$> coerce_cell format (c_time r)))
               (fun r => num_cell (ts_second <$> coerce_cell format (c_time r)))
               (fun r => Num (Z.of_nat (String.length (c_text r)))) kept).
    rewrite hstack_rows. cbn [mbind result_bind rbind]. by eexists _, _, _, _, _, _.
Qed.

(** ** The table that preprocessing returns *)

Lemma preprocess_frame (df : list TrainRecord) (frame : TrainFrame)
    (X : list (list cell)) (y : list Z) (v : TfidfVectorizer.t) (a b : LabelEncoder.t) :
  preprocess_data df = Ok (frame, X, y, v, a, b) ->
  let kept := dropna df in
  authorMeta_name_encoded frame = map (fun c => fitted_code a (c_author c)) kept
  /\ musicMeta_musicName_encoded frame = map (fun c => fitted_code b (c_music c)) kept
  /\ text_length frame = map (fun c => Z.of_nat (String.length (c_text c))) kept
  /\ hashtags_str_col frame = map (fun c => hashtags_str (c_text c)) kept
  /\ createTime frame = map (fun c => coerce_cell (table_format df) (c_time c)) kept
  /\ hour frame = map (fun c => ts_hour <$> coerce_cell (table_format df) (c_time c)) kept
  /\ minute frame = map (fun c => ts_minute <$> coerce_cell (table_format df) (c_time c)) kept
  /\ second frame = map (fun c => ts_second <$> coerce_cell (table_format df) (c_time c)) kept
  /\ day frame
     = map (fun c => coerce_cell (table_format df) (c_time c)
                     ≫= fun t => days_mapping !! ts_dayofweek t) kept
  /\ total_interactions_col frame
     = map (fun c => total_interactions (c_digg c) (c_share c) (c_comment c) (c_play c)) kept.
Proof.
  intros Hpre kept.
  pose proof (preprocess_data_inv _ _ _ _ _ _ _ Hpre) as (Ha & Hb & Hv & Ht & _).
  subst a b. revert Hpre. unfold preprocess_data. fold kept.
  rewrite !fit_transform_Ok. cbn [mbind result_bind rbind].
  unfold TfidfVectorizer.fit_transform. fold kept in Hv, Ht. rewrite Hv.
  cbn [mbind result_bind rbind]. rewrite (transform_fitted _ v v Hv). cbn [mbind result_bind rbind].
  rewrite Ht. cbn [mbind result_bind rbind].
  match goal with |- context [hstack ?A ?B] => destruct (hstack A B) as [features|] end;
    [|done]. cbn [mbind result_bind rbind].
  intros [= <-]. cbn. unfold dt. rewrite !map_map.
  split_and!; try done.
  apply map_ext. intros c. by destruct (coerce_cell _ (c_time c)).
Qed.

(** X5. Whatever table preprocessing accepts, the feature matrix, the label
    vector and the returned table are aligned with the rows that [dropna]
    keeps: equally long, and at every position the feature row, the label
    (0 or 1, the thresholded total of that row) and the derived columns
    all come from the kept row at that position. *)
Theorem training_rows_aligned (df : list TrainRecord) (frame : TrainFrame)
    (X : list (list cell)) (y : list Z) (v : TfidfVectorizer.t) (a b : LabelEncoder.t) :
  preprocess_data df = Ok (frame, X, y, v, a, b) ->
  rows frame = dropna df
  /\ length X = length (dropna df)
  /\ length y = length (dropna df)
  /\ is_popular_col frame = y
  /\ (forall i c, dropna df !! i = Some c ->
        X !! i = Some (train_row (table_format df) a b v c)
        /\ y !! i = Some (is_popular (c_digg c) (c_share c) (c_comment c) (c_play c))
        /\ (y !! i = Some 0 \/ y !! i = Some 1)
        /\ total_interactions_col frame !! i
           = Some (total_interactions (c_digg c) (c_share c) (c_comment c) (c_play c))
        /\ text_length frame !! i = Some (Z.of_nat (String.length (c_text c)))
        /\ hashtags_str_col frame !! i = Some (hashtags_str (c_text c))
        /\ hour frame !! i = Some (ts_hour <$> coerce_cell (table_format df) (c_time c))
        /\ minute frame !! i = Some (ts_minute <$> coerce_cell (table_format df) (c_time c))
        /\ second frame !! i = Some (ts_second <$> coerce_cell (table_format df) (c_time c))).
Proof.
  intros Hpre.
  pose proof (preprocess_frame _ _ _ _ _ _ _ Hpre) as
    (_ & _ & Hlen & Htags & _ & Hh & Hm & Hs & _ & Htot).
  apply preprocess_data_inv in Hpre as (_ & _ & _ & _ & -> & -> & Hrows & Hpop).
  rewrite !length_map. split_and!; try done.
  intros i c Hi.
  rewrite Hlen, Htags, Hh, Hm, Hs, Htot, !list_lookup_fmap, Hi. simpl.
  split_and!; try done.
  destruct (is_popular_binary (c_digg c) (c_share c) (c_comment c) (c_play c)) as [->| ->];
    [by left|by right].
Qed.

Lemma training_rows_aligned_witness :
  exists frame X y v a b,
    preprocess_data two_posts = Ok (frame, X, y, v, a, b)
    /\ length X = 2%nat /\ y = [1; 0].
Proof.
  destruct (preprocess_data two_posts) as [[[[[[frame X] y] v] a] b]|] eqn:Hpre;
    [|vm_compute in Hpre; discriminate].
  exists frame, X, y, v, a, b. split; [done|].
  destruct (training_rows_aligned two_posts frame X y v a b Hpre)
    as (_ & HX & Hy & _ & Hrow).
  split; [by rewrite HX|].
  assert (Hkept : exists c0 c1, dropna two_posts = [c0; c1]
            /\ is_popular (c_digg c0) (c_share c0) (c_comment c0) (c_play c0) = 1
            /\ is_popular (c_digg c1) (c_share c1) (c_comment c1) (c_play c1) = 0).
  { eexists _, _. split; [vm_compute; reflexivity|]. split; reflexivity. }
  destruct Hkept as (c0 & c1 & Hk & H0 & H1).
  rewrite Hk in Hy, Hrow.
  destruct (Hrow 0%nat c0 eq_refl) as (_ & Hy0 & _).
  destruct (Hrow 1%nat c1 eq_refl) as (_ & Hy1 & _).
  rewrite H0 in Hy0. rewrite H1 in Hy1.
  destruct y as [|y0 [|y1 [|y2 y']]]; try done.
  simpl in Hy0, Hy1. congruence.
Defined.

(** X6. The codes that training stores never are the sentinel and decode
    back: for every kept row the author code (and the music code) in the
    returned table is a position of [classes_] below its length, and the
    class at that position is the row's author (its music). *)
Theorem training_codes_decode (df : list TrainRecord) (frame : TrainFrame)
    (X : list (list cell)) (y : list Z) (v : TfidfVectorizer.t) (a b : LabelEncoder.t) :
  preprocess_data df = Ok (frame, X, y, v, a, b) ->
  forall i c, dropna df !! i = Some c ->
    (exists code : nat,
        authorMeta_name_encoded frame !! i = Some (Z.of_nat code)
        /\ (code < length (classes_ a))%nat
        /\ classes_ a !! code = Some (c_author c))
    /\ (exists code : nat,
          musicMeta_musicName_encoded frame !! i = Some (Z.of_nat code)
          /\ (code < length (classes_ b))%nat
          /\ classes_ b !! code = Some (c_music c)).
Proof.
  intros Hpre i c Hi.
  pose proof (preprocess_frame _ _ _ _ _ _ _ Hpre) as (Hca & Hcb & _).
  apply preprocess_data_inv in Hpre as (-> & -> & _).
  assert (Hcode : forall (f : CleanRecord -> string),
            exists code : nat,
              fitted_code (LabelEncoder.fit (map f (dropna df))) (f c) = Z.of_nat code
              /\ (code < length (classes_ (LabelEncoder.fit (map f (dropna df)))))%nat
              /\ classes_ (LabelEncoder.fit (map f (dropna df))) !! code = Some (f c)).
  { intros f.
    assert (Hin : f c ∈ unique (map f (dropna df))).
    { apply unique_elem, list_elem_of_fmap. exists c. split; [done|].
      by apply list_elem_of_lookup_2 in Hi. }
    apply list_elem_of_lookup_1 in Hin as [code Hcode]. exists code.
    split_and!; [|by eapply lookup_lt_Some|done].
    unfold fitted_code. cbn [LabelEncoder.fit classes_].
    rewrite (index_of_lookup _ _ code); [done| |done].
    apply sorted_NoDup, unique_sorted. }
  rewrite Hca, Hcb, !list_lookup_fmap, Hi. simpl.
  destruct (Hcode c_author) as (ca & -> & ? & ?).
  destruct (Hcode c_music) as (cb & -> & ? & ?).
  split; eexists; by split_and!.
Qed.

Lemma training_codes_decode_witness :
  exists frame X y v a b,
    preprocess_data two_posts = Ok (frame, X, y, v, a, b)
    /\ exists code : nat,
         authorMeta_name_encoded frame !! 1%nat = Some (Z.of_nat code)
         /\ classes_ a !! code = Some "bob".
Proof.
  destruct (preprocess_data two_posts) as [[[[[[frame X] y] v] a] b]|] eqn:Hpre;
    [|vm_compute in Hpre; discriminate].
  exists frame, X, y, v, a, b. split; [done|].
  assert (Hkept : exists c1, dropna two_posts !! 1%nat = Some c1 /\ c_author c1 = "bob").
  { eexists. split; [vm_compute; reflexivity|reflexivity]. }
  destruct Hkept as (c1 & Hk & Hbob).
  destruct (training_codes_decode two_posts frame X y v a b Hpre 1%nat c1 Hk)
    as [(code & Hcode & _ & Hclass) _].
  exists code. by rewrite <- Hbob.
Defined.

(** ** What a run of the script does to the session *)

Definition same_artifacts (st st' : SessionState) : Prop :=
  model st' = model st /\ le_name st' = le_name st
  /\ le_music st' = le_music st /\ tfidf st' = tfidf st.

Definition untrained (st : SessionState) : Prop :=
  model st = None /\ le_name st = None /\ le_music st = None /\ tfidf st = None.

Section Artifacts.

Variable learner : list (list cell) -> list Z -> result (list cell -> bool).

(** The four artifacts of [st] are the ones of one preprocessing of the
    table [df] and of the forest learnt from its features and labels. *)
Definition trained_from (st : SessionState) (df : list TrainRecord) : Prop :=
  exists frame X y v a b f,
    preprocess_data df = Ok (frame, X, y, v, a, b)
    /\ learner X y = Ok f
    /\ model st = Some {| n_features_in_ := width X; decision := f |}
    /\ le_name st = Some a /\ le_music st = Some b /\ tfidf st = Some v.

Lemma main_artifacts (ui : Ui) (st : SessionState) :
  same_artifacts st (main learner ui st).2
  \/ (resolved_section ui st = Model
      /\ (main learner ui st).1 = (Ok (), [ShowEvaluation])
      /\ exists df, data_csv ui = Some df /\ trained_from (main learner ui st).2 df).
Proof.
  unfold main, resolved_section.
  set (st1 := match sidebar ui with Some s => set_section s st | None => st end).
  assert (H1 : same_artifacts st st1) by (unfold st1; by destruct (sidebar ui)).
  assert (S1 : section st1 = Some Model ->
               match sidebar ui with Some s => s | None => default EDA (section st) end
               = Model).
  { unfold st1. destruct (sidebar ui) as [s|]; simpl; [congruence|].
    by intros ->. }
  clearbody st1.
  set (st2 := match section st1 with None => set_section EDA st1 | Some _ => st1 end).
  assert (H2 : same_artifacts st st2) by (unfold st2; by destruct (section st1)).
  assert (S2 : section st2 = Some Model -> section st1 = Some Model).
  { unfold st2. destruct (section st1) eqn:E; [congruence|]. simpl. by intros [=]. }
  clearbody st2.
  destruct (data_csv ui) as [[|r df]|]; try (by left).
  destruct (preprocess_data (r :: df)) as [[[[[[frame X] y] v] a] b]|] eqn:Hpre;
    [|by left].
  destruct (section st2) as [[| | |]|] eqn:Hs; try (by left).
  - unfold train_and_evaluate. destruct (learner X y) as [f|] eqn:Hf; [|by left].
    right. cbn. split_and!; [by apply S1, S2|done|].
    exists (r :: df). split; [done|]. by exists frame, X, y, v, a, b, f.
  - destruct (model st2); [|by left].
    destruct (prediction_tabs ui st2) as [res out]. by left.
Qed.

Lemma reachable_all_or_nothing (st : SessionState) :
  reachable learner st -> untrained st \/ exists df, trained_from st df.
Proof.
  induction 1 as [|ui st _ IH]; [by left|].
  destruct (main_artifacts ui st) as [(Hm & Ha & Hb & Hv)|(_ & _ & df & _ & Hnew)].
  - destruct IH as [(? & ? & ? & ?)|(df & frame & X & y & v & a & b & f & ? & ? & ? & ? & ? & ?)].
    + left. unfold untrained. rewrite Hm, Ha, Hb, Hv. done.
    + right. exists df, frame, X, y, v, a, b, f. rewrite Hm, Ha, Hb, Hv. done.
  - right. by exists df.
Qed.

End Artifacts.

(** X7. The artifacts of a session always belong to one fit. In every
    session that runs of the script can reach, either none of classifier,
    author encoder, music encoder and vectorizer is there, or all four
    are, and they are the encoders and vectorizer of one preprocessing of
    one training table together with the forest learnt from the features
    and labels of that same preprocessing. *)
Theorem session_artifacts_from_one_fit
    (learner : list (list cell) -> list Z -> result (list cell -> bool))
    (st : SessionState) :
  reachable learner st ->
  untrained st \/ exists df, trained_from learner st df.
Proof. apply reachable_all_or_nothing. Qed.

Lemma session_artifacts_from_one_fit_witness :
  reachable demo_learner trained_session
  /\ exists df, trained_from demo_learner trained_session df.
Proof.
  assert (Hreach : reachable demo_learner trained_session).
  { change trained_session with (main demo_learner (visit Model) empty_session).2.
    apply reachable_run, reachable_fresh. }
  split; [exact Hreach|].
  destruct (session_artifacts_from_one_fit demo_learner trained_session Hreach)
    as [(Hm & _)|Hdf]; [discriminate Hm|exact Hdf].
Defined.

(** X8. A run replaces the artifacts of the session all together or not at
    all. After any run either the four artifacts are the ones from before,
    or the run was on the training page, ended normally showing the
    evaluation, and all four are those of this run's table. A run on
    another page, and a run that raises (the learner failing included),
    leaves them as they were. *)
Theorem artifacts_swap_atomically
    (learner : list (list cell) -> list Z -> result (list cell -> bool))
    (ui : Ui) (st : SessionState) :
  (same_artifacts st (main learner ui st).2
   \/ (resolved_section ui st = Model
       /\ (main learner ui st).1 = (Ok (), [ShowEvaluation])
       /\ exists df, data_csv ui = Some df
                     /\ trained_from learner (main learner ui st).2 df))
  /\ (resolved_section ui st <> Model -> same_artifacts st (main learner ui st).2)
  /\ (forall e, (main learner ui st).1.1 = Raise e ->
        same_artifacts st (main learner ui st).2).
Proof.
  pose proof (main_artifacts learner ui st) as H.
  split_and!; [done| |].
  - intros Hne. by destruct H as [?|[? _]].
  - intros e He. destruct H as [?|(_ & Hok & _)]; [done|].
    rewrite Hok in He. discriminate He.
Qed.

(** X9. The page of a run is remembered: after any run, whether it ends
    normally, returns early or raises, the session holds the page that run
    resolved to (the pressed sidebar button, else the remembered page, else
    the first page), so a following run without a pressed button resolves
    to the same page. *)
Theorem page_is_remembered
    (learner : list (list cell) -> list Z -> result (list cell -> bool))
    (ui : Ui) (st : SessionState) :
  section (main learner ui st).2 = Some (resolved_section ui st)
  /\ (forall ui', sidebar ui' = None ->
        resolved_section ui' (main learner ui st).2 = resolved_section ui st)
  /\ (forall ui' page, sidebar ui' = Some page ->
        resolved_section ui' (main learner ui st).2 = page).
Proof.
  pose proof (main_section learner ui st) as Hs. split_and!; [done| |].
  - intros ui' Hnone. unfold resolved_section at 1. by rewrite Hnone, Hs.
  - intros ui' page Hp. unfold resolved_section at 1. by rewrite Hp.
Qed.

(** X10. No page without the training table. Whatever a run shows other
    than the loading error, it shows only after the table was loaded, was
    not empty and was preprocessed without an exception; when
    preprocessing raises, the run raises the same exception and shows
    nothing, on every page and in every session, a trained one on the
    prediction page included. *)
Theorem nothing_shown_without_table
    (learner : list (list cell) -> list Z -> result (list cell -> bool))
    (ui : Ui) (st : SessionState) :
  (forall d, d ∈ (main learner ui st).1.2 ->
      (data_csv ui = None /\ exists msg, d = ShowError msg)
      \/ (exists df out, data_csv ui = Some df /\ df <> []
                         /\ preprocess_data df = Ok out))
  /\ (forall df e, data_csv ui = Some df -> df <> [] ->
        preprocess_data df = Raise e ->
        (main learner ui st).1 = (Raise e, []))
  /\ (data_csv ui = Some [] -> (main learner ui st).1 = (Ok (), [])).
Proof.
  unfold main.
  set (st2 := match section _ with None => _ | Some _ => _ end). clearbody st2.
  destruct (data_csv ui) as [[|r df]|].
  - split_and!; [| |done].
    + intros d Hd. by apply elem_of_nil in Hd.
    + by intros df e [= <-] Hne.
  - destruct (preprocess_data (r :: df)) as [out|e'] eqn:Hpre.
    + split_and!; [| |done].
      * intros d _. right. by exists (r :: df), out.
      * intros df' e [= <-] _ He. congruence.
    + split_and!; [| |done].
      * intros d Hd. by apply elem_of_nil in Hd.
      * intros df' e [= <-] _ He. assert (e' = e) as -> by congruence. done.
  - split_and!; [|done|done]. intros d Hd.
    apply list_elem_of_singleton in Hd. left. split; [done|]. by eexists.
Qed.

(** ** The bulk tabs of the prediction page *)

(** The table the page shows for a batch: six columns, the last one the
    display labels. *)
Definition shown_table (m : Classifier) (a b : LabelEncoder.t) (v : TfidfVectorizer.t)
    (batch : list RawRecord) : gmap string column :=
  list_to_map
    [("text", ObjCol (map (fun r => Some (default "" (text r))) batch));
     ("authorMeta.name", ObjCol (map author batch));
     ("musicMeta.musicName", ObjCol (map music batch));
     ("videoMeta.duration", NumCol (map duration batch));
     ("createTimeISO",
      DatetimeCol (map (fun r => coerce_cell (batch_format batch) (createTimeISO r)) batch));
     ("status_popularitas",
      ObjCol (map (fun r => status_labels
                            !! label_of m (bulk_row (batch_format batch) a b v r)) batch))].

Lemma status_label_cases (m : Classifier) (row : list cell) :
  status_labels !! label_of m row = Some "🔥 Populer"
  \/ status_labels !! label_of m row = Some "❄️ Tidak Populer".
Proof. unfold label_of. destruct (decision m row); [by left|by right]. Qed.

(** The batches the bulk path labels: not empty, with timestamps of one
    offset from UTC, and in every record a duration, a timestamp read in
    the format of the column, and an author and a music name that do not
    end in U+0000. *)
Definition accepted (batch : list RawRecord) : Prop :=
  batch <> [] /\ one_timezone batch = true
  /\ forall r, r ∈ batch ->
       duration r <> None
       /\ coerce_cell (batch_format batch) (createTimeISO r) <> None
       /\ rstrip_nul (str_of (author r)) = str_of (author r)
       /\ rstrip_nul (str_of (music r)) = str_of (music r).

Lemma run_bulk_accepted (st : SessionState) (m : Classifier) (v : TfidfVectorizer.t)
    (a b : LabelEncoder.t) (batch : list RawRecord) :
  model st = Some m -> tfidf st = Some v ->
  le_name st = Some a -> le_music st = Some b ->
  n_features_in_ m = (length (TfidfVectorizer.vocabulary_ v) + 7)%nat ->
  accepted batch ->
  run_bulk st batch = Ok (shown_table m a b v batch).
Proof.
  intros Hm Hv Ha Hb Hn (Hne & Htz & Hrows). unfold run_bulk. rewrite Hm, Hv.
  cbn [attr mbind result_bind rbind].
  assert (Hreach : reaches_classifier a b batch).
  { split_and!; [done| |].
    - apply padded_author_plain. intros r Hr. by destruct (Hrows r Hr) as (_ & _ & ? & _).
    - apply padded_music_plain. intros r Hr. by destruct (Hrows r Hr) as (_ & _ & _ & ?). }
  rewrite (predict_bulk_classified st m v a b 1%positive _ batch Ha Hb
             (lookup_singleton_eq _ _) Hreach).
  rewrite (bulk_outcome_Ok m a b v batch Hne); [|
    intros r Hr; by destruct (Hrows r Hr) as (? & ? & _)|done].
  cbv beta iota zeta. cbn [mbind result_bind rbind]. rewrite lookup_total_insert_eq.
  unfold shown_columns, prepared_frame, named_frame, timed_frame, texted_frame,
    frame_of_rows. cbn [rmapM].
  frame_lookup. cbn [mbind result_bind rbind]. by rewrite map_map.
Qed.

(** X11. In a trained session the bulk path labels every accepted batch:
    for a batch that is not empty, whose timestamps have one offset from
    UTC, and in which every record has a duration, a timestamp that is
    read in the format of the column, and an author and a music name that
    do not end in U+0000, the page gets a table of exactly six columns,
    the five inputs (text with empty fields as the empty string,
    timestamps parsed) and status_popularitas, which holds for each record,
    in the order of the batch, one of the two display labels and never an
    empty cell. *)
Theorem bulk_page_labels_every_record
    (learner : list (list cell) -> list Z -> result (list cell -> bool))
    (st : SessionState) (m : Classifier) (batch : list RawRecord) :
  reachable learner st -> model st = Some m -> accepted batch ->
  exists a b v,
    le_name st = Some a /\ le_music st = Some b /\ tfidf st = Some v
    /\ run_bulk st batch = Ok (shown_table m a b v batch)
    /\ (forall i r, batch !! i = Some r ->
          exists label,
            shown_table m a b v batch !! "status_popularitas" = Some (ObjCol label)
            /\ length label = length batch
            /\ (label !! i = Some (Some "🔥 Populer")
                \/ label !! i = Some (Some "❄️ Tidak Populer")))
    /\ shown_table m a b v batch !! "hour" = None
    /\ shown_table m a b v batch !! "text_length" = None.
Proof.
  intros Hreach Hm Hacc.
  destruct (reachable_fitted learner st Hreach m Hm) as (a & b & v & Ha & Hb & Hv & Hn).
  exists a, b, v. split_and!; try done.
  - by apply run_bulk_accepted.
  - intros i r Hi. eexists. split; [reflexivity|].
    rewrite length_map, list_lookup_fmap, Hi. split; [done|]. simpl.
    destruct (status_label_cases m (bulk_row (batch_format batch) a b v r)) as [-> | ->];
      [by left|by right].
Qed.

Lemma bulk_page_labels_every_record_witness :
  run_bulk trained_session good_batch
  = Ok (shown_table demo_model {| classes_ := ["alice"; "bob"] |}
          {| classes_ := ["song"] |} demo_vectorizer good_batch).
Proof.
  assert (Hreach : reachable demo_learner trained_session).
  { change trained_session with (main demo_learner (visit Model) empty_session).2.
    apply reachable_run, reachable_fresh. }
  destruct (bulk_page_labels_every_record demo_learner trained_session demo_model
              good_batch Hreach eq_refl)
    as (a & b & v & Ha & Hb & Hv & Hrun & _).
  - split_and!; [done|done|].
    intros r Hr. apply list_elem_of_singleton in Hr as ->. done.
  - injection Ha as <-. injection Hb as <-. injection Hv as <-. exact Hrun.
Defined.

(** The timestamps of entered rows carry no offset. *)
Lemma same_utcoffset_naive (stamps : list (option Timestamp)) :
  Forall (fun o => forall t, o = Some t -> ts_utcoffset t = None) stamps ->
  same_utcoffset stamps = true.
Proof.
  intros Hall. unfold same_utcoffset.
  assert (Hnaive : Forall (fun t => ts_utcoffset t = None) (omap id stamps)).
  { induction Hall as [|o stamps Ho _ IH]; [constructor|].
    destruct o as [t|]; cbn [omap id]; [|done]. constructor; [by apply Ho|done]. }
  destruct Hnaive as [|t ts Ht Hts]; [done|].
  apply forallb_forall. intros t' Ht'. apply bool_decide_eq_true.
  apply list_elem_of_In in Ht'. rewrite Ht.
  by apply (proj1 (Forall_forall _ _) Hts).
Qed.

Lemma manual_batch_accepted (today : Z)
    (entered : list (string * string * string * Z * time_of_day)) :
  entered <> [] ->
  (forall txt author music duration waktu,
     (txt, author, music, duration, waktu) ∈ entered ->
     rstrip_nul author = author /\ rstrip_nul music = music) ->
  accepted (map (manual_record today) entered).
Proof.
  intros Hne Hnames. split_and!.
  - by destruct entered.
  - apply same_utcoffset_naive, Forall_forall. intros o Ho t ->.
    apply list_elem_of_fmap in Ho as (r & Hr & Hin).
    apply list_elem_of_fmap in Hin as (row & -> & _).
    destruct row as [[[[? ?] ?] ?] ?]. cbn in Hr. by injection Hr as ->.
  - intros r Hr. apply list_elem_of_fmap in Hr as (row & -> & Hrow).
    destruct row as [[[[txt author] music] duration] waktu].
    destruct (Hnames _ _ _ _ _ Hrow). by split_and!.
Qed.

(** X12. The manual-entry tab does not fail in a trained session on typed
    names that do not end in U+0000: a frame built from entered rows, of
    which there is at least one, has a duration and a timestamp in every
    row, and its timestamps carry no offset, so bulk inference on it
    returns and every entered row gets a display label, whatever text was
    typed. *)
Theorem manual_entry_is_always_labelled
    (learner : list (list cell) -> list Z -> result (list cell -> bool))
    (st : SessionState) (m : Classifier) (today : Z)
    (entered : list (string * string * string * Z * time_of_day)) :
  reachable learner st -> model st = Some m -> entered <> [] ->
  (forall txt author music duration waktu,
     (txt, author, music, duration, waktu) ∈ entered ->
     rstrip_nul author = author /\ rstrip_nul music = music) ->
  let batch := map (manual_record today) entered in
  exists a b v,
    le_name st = Some a /\ le_music st = Some b /\ tfidf st = Some v
    /\ run_bulk st batch = Ok (shown_table m a b v batch)
    /\ shown_table m a b v batch !! "status_popularitas"
       = Some (ObjCol (map (fun row => status_labels
                                       !! label_of m (bulk_row (batch_format batch) a b v
                                                        (manual_record today row)))
                           entered)).
Proof.
  intros Hreach Hm Hne Hnames batch.
  destruct (reachable_fitted learner st Hreach m Hm) as (a & b & v & Ha & Hb & Hv & Hn).
  exists a, b, v. split_and!; try done.
  - apply run_bulk_accepted; try done. by apply manual_batch_accepted.
  - unfold shown_table, list_to_map. cbn [foldr fst snd]. frame_lookup.
    unfold batch. by rewrite map_map.
Qed.

Lemma manual_entry_is_always_labelled_witness :
  exists table,
    run_bulk trained_session
      (map (manual_record 4) [("", "nobody", "", 1, noon)]) = Ok table
    /\ table !! "status_popularitas" = Some (ObjCol [Some "🔥 Populer"]).
Proof.
  assert (Hreach : reachable demo_learner trained_session).
  { change trained_session with (main demo_learner (visit Model) empty_session).2.
    apply reachable_run, reachable_fresh. }
  destruct (manual_entry_is_always_labelled demo_learner trained_session demo_model 4
              [("", "nobody", "", 1, noon)] Hreach eq_refl)
    as (a & b & v & Ha & Hb & Hv & Hrun & Hstatus); [done| |].
  - intros txt author music duration waktu Hin.
    apply list_elem_of_singleton in Hin. by injection Hin as -> -> -> -> ->.
  - eexists. split; [exact Hrun|]. rewrite Hstatus. reflexivity.
Defined.

(** ** The single-record tab of the prediction page *)

Lemma main_prediction_page
    (learner : list (list cell) -> list Z -> result (list cell -> bool))
    (ui : Ui) (st : SessionState) (m : Classifier) (df : list TrainRecord)
    (out : TrainFrame * list (list cell) * list Z * TfidfVectorizer.t
           * LabelEncoder.t * LabelEncoder.t) :
  model st = Some m -> resolved_section ui st = Prediksi ->
  data_csv ui = Some df -> df <> [] -> preprocess_data df = Ok out ->
  exists st2, same_artifacts st st2
              /\ (main learner ui st).1 = prediction_tabs ui st2.
Proof.
  intros Hm Hsec Hcsv Hne Hpre. unfold main, resolved_section in *.
  set (st1 := match sidebar ui with Some s => set_section s st | None => st end).
  assert (H1 : same_artifacts st st1) by (unfold st1; by destruct (sidebar ui)).
  assert (S1 : section st1 = Some Prediksi \/ section st1 = None /\ False).
  { unfold st1. destruct (sidebar ui) as [s|]; [left; simpl; by f_equal|].
    destruct (section st); simpl in *; [left; by f_equal|done]. }
  destruct S1 as [S1|[_ []]]. rewrite S1. clearbody st1.
  rewrite Hcsv. destruct df as [|r df]; [done|]. rewrite Hpre.
  destruct out as [[[[[frame X] y] v] a] b]. rewrite S1.
  destruct H1 as (Hm1 & ? & ? & ?). rewrite Hm1, Hm.
  exists st1. split; [done|]. by destruct (prediction_tabs ui st1).
Qed.

Lemma prediction_tabs_first (ui : Ui) (st : SessionState) (answer : display) :
  click_single ui = true ->
  (m ← attr "model" (model st);
   v ← attr "tfidf" (tfidf st);
   result ← predict_content st m v (in_text ui) (in_author ui) (in_music ui)
              (in_duration ui) (in_waktu ui);
   Ok [if result =? 1 then ShowSuccess popular_msg else ShowWarning not_popular_msg])
  = Ok [answer] ->
  (exists rest, (prediction_tabs ui st).2 = answer :: rest)
  /\ (uploaded_file ui = None -> click_manual ui = false ->
      prediction_tabs ui st = (Ok (), [answer])).
Proof.
  intros Hclick Htab. unfold prediction_tabs. rewrite Hclick, Htab. split.
  - destruct (uploaded_file ui) as [batch|].
    + destruct (run_bulk st batch) as [table|e]; cbn [mbind result_bind rbind];
        [|by eexists].
      destruct (click_manual ui); [|by eexists].
      destruct (run_bulk st _) as [table'|e]; cbn [mbind result_bind rbind]; by eexists.
    + destruct (click_manual ui); [|by eexists].
      destruct (run_bulk st _) as [table'|e]; cbn [mbind result_bind rbind]; by eexists.
  - by intros -> ->.
Qed.

(** X13. In a trained session the single-record button gets its answer
    first on the page. On the prediction page, with the training table
    loaded and preprocessed and an author and a music name entered that do
    not end in U+0000, a run with the button pressed shows first one
    message for the entered record: the success message when the
    classifier puts it into class 1, the not-popular warning otherwise.
    When no file is uploaded and the manual button is not pressed, the run
    ends normally and shows nothing else. The session artifacts stay as
    they were. *)
Theorem single_button_shows_one_answer
    (learner : list (list cell) -> list Z -> result (list cell -> bool))
    (ui : Ui) (st : SessionState) (m : Classifier) (df : list TrainRecord)
    (out : TrainFrame * list (list cell) * list Z * TfidfVectorizer.t
           * LabelEncoder.t * LabelEncoder.t) :
  reachable learner st -> model st = Some m ->
  resolved_section ui st = Prediksi ->
  data_csv ui = Some df -> df <> [] -> preprocess_data df = Ok out ->
  click_single ui = true ->
  rstrip_nul (in_author ui) = in_author ui -> rstrip_nul (in_music ui) = in_music ui ->
  exists a b v,
    le_name st = Some a /\ le_music st = Some b /\ tfidf st = Some v
    /\ (let answer :=
          if decision m (content_row a b v (in_text ui) (in_author ui) (in_music ui)
                           (in_duration ui) (in_waktu ui))
          then ShowSuccess popular_msg
          else ShowWarning not_popular_msg in
        (exists rest, (main learner ui st).1.2 = answer :: rest)
        /\ (uploaded_file ui = None -> click_manual ui = false ->
            (main learner ui st).1 = (Ok (), [answer])))
    /\ same_artifacts st (main learner ui st).2.
Proof.
  intros Hreach Hm Hsec Hcsv Hne Hpre Hclick Hau Hmu.
  pose proof (reachable_fitted learner st Hreach) as Hfit.
  destruct (Hfit m Hm) as (a & b & v & Ha & Hb & Hv & Hn).
  exists a, b, v. split_and!; try done.
  - destruct (main_prediction_page learner ui st m df out Hm Hsec Hcsv Hne Hpre)
      as (st2 & (Hm2 & Ha2 & Hb2 & Hv2) & ->).
    assert (Hfit2 : fitted st2).
    { intros m' Hm'. rewrite Hm2, Hm in Hm'. injection Hm' as <-.
      exists a, b, v. by rewrite Ha2, Hb2, Hv2. }
    apply prediction_tabs_first; [done|].
    rewrite Hm2, Hm, Hv2, Hv. cbn [attr mbind result_bind rbind].
    destruct (predict_content_fitted st2 m v (in_text ui) (in_author ui) (in_music ui)
                (in_duration ui) (in_waktu ui) Hfit2)
      as (a' & b' & Ha' & Hb' & ->); [congruence|congruence|].
    assert (a' = a) as -> by congruence. assert (b' = b) as -> by congruence.
    rewrite !padded_plain by done.
    cbn [orb rbind]. unfold label_of. by destruct (decision m _).
  - destruct (main_artifacts learner ui st) as [?|(Hmodel & _)]; [done|].
    rewrite Hsec in Hmodel. discriminate Hmodel.
Qed.

Lemma single_button_shows_one_answer_witness :
  (main demo_learner press_predict trained_session).1
  = (Ok (), [ShowSuccess popular_msg]).
Proof.
  assert (Hreach : reachable demo_learner trained_session).
  { change trained_session with (main demo_learner (visit Model) empty_session).2.
    apply reachable_run, reachable_fresh. }
  destruct (preprocess_data two_posts) as [out|] eqn:Hpre;
    [|vm_compute in Hpre; discriminate].
  destruct (single_button_shows_one_answer demo_learner press_predict trained_session
              demo_model two_posts out Hreach eq_refl eq_refl eq_refl)
    as (a & b & v & Ha & Hb & Hv & [_ Hrun] & _);
    [done|exact Hpre|done|done|done|].
  rewrite (Hrun eq_refl eq_refl).
  injection Ha as <-. injection Hb as <-. injection Hv as <-. reflexivity.
Defined.

(** ** What the vectorizer is fitted on *)

(** The characters of a hashtag after its hash sign. *)
Definition body (m : string) : string :=
  match m with
  | EmptyString => EmptyString
  | String _ w => w
  end.

Lemma lower_app (a b : string) : lower (a +:+ b) = lower a +:+ lower b.
Proof.
  induction a as [|c a IH]; [done|].
  rewrite str_app_cons. simpl. by rewrite IH, str_app_cons.
Qed.

Lemma lower_length (s : string) : String.length (lower s) = String.length s.
Proof. induction s as [|c s IH]; simpl; [done|]. by rewrite IH. Qed.

Lemma is_word_lower (c : ascii) : is_word (lower_char c) = is_word c.
Proof. destruct c as [[] [] [] [] [] [] [] []]; reflexivity. Qed.

Lemma all_word_lower (w : string) : all_word (lower w) = all_word w.
Proof.
  induction w as [|c w IH]; simpl; [done|]. by rewrite is_word_lower, IH.
Qed.

Lemma rev_app_rev_app (w cur acc : string) :
  String.rev_app (String.rev_app w cur) acc = String.rev_app cur (w +:+ acc).
Proof.
  revert cur. induction w as [|c w IH]; intros cur; simpl; [done|].
  by rewrite IH, str_app_cons.
Qed.

Lemma str_app_nil_r (w : string) : w +:+ EmptyString = w.
Proof. induction w as [|c w IH]; [done|]. by rewrite str_app_cons, IH. Qed.

Lemma rev_app_length (w cur : string) :
  String.length (String.rev_app w cur) = (String.length w + String.length cur)%nat.
Proof.
  revert cur. induction w as [|c w IH]; intros cur; simpl; [done|].
  rewrite IH. simpl. lia.
Qed.

(** A run of word characters read from the start of a token is closed as
    one token when it is two or more characters long. *)
Lemma close_run_word (w : string) :
  close_run (String.rev_app w EmptyString)
  = if (2 <=? String.length w)%nat then [w] else [].
Proof.
  unfold close_run, String.rev.
  rewrite rev_app_length, rev_app_rev_app, str_app_nil_r, Nat.add_0_r. done.
Qed.

Lemma tokens_scan_word_end (cur w : string) :
  all_word w = true -> tokens_scan cur w = close_run (String.rev_app w cur).
Proof.
  revert cur. induction w as [|c w IH]; intros cur Hw; simpl in *; [done|].
  apply andb_prop in Hw as [-> Hw]. by apply IH.
Qed.

Lemma tokens_scan_word_sep (cur w : string) (c : ascii) (rest : string) :
  all_word w = true -> is_word c = false ->
  tokens_scan cur (w +:+ String c rest)
  = (close_run (String.rev_app w cur) ++ tokens_scan EmptyString rest)%list.
Proof.
  revert cur. induction w as [|d w IH]; intros cur Hw Hc.
  - rewrite str_app_nil. simpl. by rewrite Hc.
  - rewrite str_app_cons. simpl in *. apply andb_prop in Hw as [-> Hw]. by apply IH.
Qed.

Lemma matches_everywhere_hashtags (s : string) :
  Forall is_hashtag (matches_everywhere s).
Proof.
  induction s as [|c s IH]; [constructor|].
  cbn [matches_everywhere].
  destruct (match_hashtag (String c s)) as [m|] eqn:Hm; [|done].
  constructor; [|done].
  apply match_hashtag_spec in Hm as (_ & _ & ? & _). done.
Qed.

Lemma tokens_of_joined_hashtags (ms : list string) :
  Forall is_hashtag ms ->
  analyze (String.concat " " ms)
  = filter (fun w => (2 <= String.length w)%nat) (map (fun m => lower (body m)) ms).
Proof.
  unfold analyze. induction 1 as [|m ms (w & -> & _ & Hw) Hms IH]; [done|].
  assert (Hlw : all_word (lower w) = true) by (by rewrite all_word_lower).
  assert (Hhead : filter (fun w => (2 <= String.length w)%nat)
                    (map (fun m => lower (body m)) (String "#" w :: ms))
                  = ((if (2 <=? String.length (lower w))%nat then [lower w] else [])
                     ++ filter (fun w => (2 <= String.length w)%nat)
                          (map (fun m => lower (body m)) ms))%list).
  { cbn [map body]. rewrite filter_cons.
    destruct (Nat.leb_spec 2 (String.length (lower w)));
      destruct (decide (2 <= String.length (lower w))%nat); (done || lia). }
  rewrite Hhead. clear Hhead.
  destruct ms as [|m' ms].
  - cbn [String.concat lower tokens_scan map]. rewrite filter_nil, app_nil_r.
    change (is_word (lower_char "#")) with false. cbv iota.
    change (close_run EmptyString) with (@nil string). rewrite app_nil_l.
    by rewrite tokens_scan_word_end, close_run_word.
  - change (String.concat " " (String "#" w :: m' :: ms))
      with (String "#" w +:+ String " " EmptyString +:+ String.concat " " (m' :: ms)).
    rewrite str_app_cons, (str_app_cons " "), str_app_nil.
    cbn [lower tokens_scan].
    change (is_word (lower_char "#")) with false. cbv iota.
    change (close_run EmptyString) with (@nil string). rewrite app_nil_l.
    rewrite lower_app. cbn [lower].
    rewrite tokens_scan_word_sep by done.
    by rewrite close_run_word, IH.
Qed.

(** X14. What the fitted vectorizer sees of a caption of code points up to
    U+00FF. The tokens it takes from the hashtag string of such a caption
    are exactly the hashtags of the caption without their hash sign, in
    lower case, in their order, leaving out the ones of a single
    character: no word of the caption outside a hashtag is counted, and a
    hashtag such as #a gives no token at all. *)
Theorem fitting_tokens_are_hashtag_bodies (txt : string) :
  analyze (hashtags_str txt)
  = filter (fun w => (2 <= String.length w)%nat)
      (map (fun m => lower (body m)) (findall_hashtags txt)).
Proof.
  rewrite hashtags_str_concat. apply tokens_of_joined_hashtags.
  rewrite findall_everywhere. apply matches_everywhere_hashtags.
Qed.

Lemma limit_features_sublist (limit : nat) (terms : list string) (tfs : list nat) :
  TfidfVectorizer.limit_features limit terms tfs `sublist_of` terms.
Proof.
  unfold TfidfVectorizer.limit_features.
  destruct (limit <? length terms)%nat; [|done]. cbv zeta.
  etransitivity; [apply fmap_sublist, sublist_filter|].
  rewrite fst_zip; [done|]. by rewrite length_seq.
Qed.

Lemma sorted_sublist (l1 l2 : list string) :
  l1 `sublist_of` l2 -> StronglySorted str_lt l2 -> StronglySorted str_lt l1.
Proof.
  induction 1 as [|x l1 l2 Hsub IH|x l1 l2 Hsub IH]; intros Hs; [done| |].
  - apply StronglySorted_inv in Hs as [Hs Hx]. constructor; [by apply IH|].
    apply Forall_forall. intros z Hz.
    apply (proj1 (Forall_forall _ _) Hx). by apply (elem_of_sublist _ _ _ Hz Hsub).
  - apply StronglySorted_inv in Hs as [Hs _]. by apply IH.
Qed.

Lemma elem_of_concat (x : string) (ls : list (list string)) :
  x ∈ concat ls -> exists l, x ∈ l /\ l ∈ ls.
Proof.
  induction ls as [|l ls IH]; simpl; [by intros ?%elem_of_nil|].
  rewrite elem_of_app. intros [Hx|Hx].
  - exists l. split; [done|left].
  - destruct (IH Hx) as (l' & ? & ?). exists l'. split; [done|by right].
Qed.

Lemma fit_vocabulary_sublist (raw_documents : list string) (v : TfidfVectorizer.t) :
  TfidfVectorizer.fit raw_documents = Ok v ->
  TfidfVectorizer.vocabulary_ v `sublist_of` corpus_terms raw_documents.
Proof.
  unfold TfidfVectorizer.fit. fold (corpus_terms raw_documents).
  destruct (corpus_terms raw_documents) as [|t ts] eqn:Ht; [done|].
  intros [= <-]. cbn [TfidfVectorizer.vocabulary_]. apply limit_features_sublist.
Qed.

(** X15. The columns of the text block are hashtags of the training table.
    Whenever preprocessing succeeds on a table whose captions are of code
    points up to U+00FF, the fitted terms stand in ascending code-point
    order without repetition, and every one of them is two or more
    characters long and is the lower-cased body of a hashtag of the
    caption of some kept row. *)
Theorem vocabulary_holds_hashtags_only (df : list TrainRecord) (frame : TrainFrame)
    (X : list (list cell)) (y : list Z) (v : TfidfVectorizer.t) (a b : LabelEncoder.t) :
  preprocess_data df = Ok (frame, X, y, v, a, b) ->
  StronglySorted str_lt (TfidfVectorizer.vocabulary_ v)
  /\ NoDup (TfidfVectorizer.vocabulary_ v)
  /\ forall term, term ∈ TfidfVectorizer.vocabulary_ v ->
       (2 <= String.length term)%nat
       /\ exists r m, r ∈ dropna df /\ m ∈ findall_hashtags (c_text r)
                      /\ term = lower (body m).
Proof.
  intros Hpre. apply preprocess_data_inv in Hpre as (_ & _ & Hfit & _).
  pose proof (fit_vocabulary_sublist _ _ Hfit) as Hsub.
  assert (Hsorted : StronglySorted str_lt (TfidfVectorizer.vocabulary_ v)).
  { apply (sorted_sublist _ _ Hsub). apply unique_sorted. }
  split_and!; [done|by apply sorted_NoDup|].
  intros term Hterm.
  apply (fun H => elem_of_sublist _ _ _ H Hsub) in Hterm.
  unfold corpus_terms in Hterm. apply (proj1 (unique_elem _ _)) in Hterm.
  apply elem_of_concat in Hterm as (tokens & Hterm & Htokens).
  rewrite map_map in Htokens.
  apply list_elem_of_fmap in Htokens as (r & -> & Hr).
  cbv beta in Hterm. rewrite hashtags_str_concat in Hterm.
  rewrite tokens_of_joined_hashtags in Hterm
    by (rewrite findall_everywhere; apply matches_everywhere_hashtags).
  apply list_elem_of_filter in Hterm as [Hlen Hterm].
  apply list_elem_of_fmap in Hterm as (m & -> & Hm).
  split; [done|]. by exists r, m.
Qed.

Lemma vocabulary_holds_hashtags_only_witness :
  exists v, TfidfVectorizer.vocabulary_ v = ["dance"; "fyp"]
            /\ StronglySorted str_lt (TfidfVectorizer.vocabulary_ v).
Proof.
  destruct (preprocess_data two_posts) as [[[[[[frame X] y] v] a] b]|] eqn:Hpre;
    [|vm_compute in Hpre; discriminate].
  exists v. split.
  - vm_compute in Hpre. by injection Hpre as <- <- <- <- <- <-.
  - by destruct (vocabulary_holds_hashtags_only two_posts frame X y v a b Hpre) as [? _].
Defined.

(** ** Fitting text against inference text *)

Lemma matches_everywhere_word (w rest : string) :
  all_word w = true -> matches_everywhere (w +:+ rest) = matches_everywhere rest.
Proof.
  induction w as [|c w IH]; intros Hw; [done|].
  rewrite str_app_cons. simpl in Hw. apply andb_prop in Hw as [Hc Hw].
  cbn [matches_everywhere]. rewrite match_hashtag_other; [by apply IH|].
  intros ->. by rewrite hash_not_word in Hc.
Qed.

(** The tokens of a text that goes on behind a complete word. *)
Lemma tokens_scan_word_rest (cur w rest : string) :
  all_word w = true -> not_word_next rest ->
  tokens_scan cur (w +:+ lower rest)
  = (close_run (String.rev_app w cur) ++ tokens_scan EmptyString (lower rest))%list.
Proof.
  intros Hw Hrest. destruct rest as [|c rest].
  - cbn [lower]. rewrite str_app_nil_r, tokens_scan_word_end by done.
    cbn [tokens_scan]. change (close_run EmptyString) with (@nil string).
    by rewrite app_nil_r.
  - cbn [lower not_word_next] in *.
    rewrite tokens_scan_word_sep by (by rewrite ?is_word_lower).
    cbn [tokens_scan]. rewrite is_word_lower, Hrest.
    by change (close_run EmptyString) with (@nil string).
Qed.

Lemma hashtag_tokens_within (n : nat) (s cur : string) :
  (String.length s < n)%nat ->
  filter (fun w => (2 <= String.length w)%nat)
    (map (fun m => lower (body m)) (matches_everywhere s))
  `sublist_of` tokens_scan cur (lower s).
Proof.
  revert s cur. induction n as [|n IH]; intros s cur Hn; [lia|].
  destruct s as [|c s]; [apply sublist_nil_l|].
  cbn [matches_everywhere].
  destruct (match_hashtag (String c s)) as [m|] eqn:Hm.
  - apply match_hashtag_spec in Hm as (rest & Hs & (w & -> & Hne & Hw) & Hrest).
    rewrite str_app_cons in Hs. injection Hs as -> ->.
    rewrite matches_everywhere_word by done.
    cbn [map body lower tokens_scan].
    change (is_word (lower_char "#")) with false. cbv iota.
    apply sublist_inserts_l.
    rewrite lower_app, tokens_scan_word_rest by (by rewrite ?all_word_lower).
    rewrite close_run_word, filter_cons.
    assert (Hrec : filter (fun w => (2 <= String.length w)%nat)
                     (map (fun m => lower (body m)) (matches_everywhere rest))
                   `sublist_of` tokens_scan EmptyString (lower rest)).
    { apply IH. simpl in Hn. rewrite str_app_length in Hn. lia. }
    destruct (Nat.leb_spec 2 (String.length (lower w)));
      destruct (decide (2 <= String.length (lower w))%nat); try lia.
    + by apply sublist_skip.
    + done.
  - cbn [lower tokens_scan]. simpl in Hn.
    destruct (is_word (lower_char c)).
    + apply IH. lia.
    + apply sublist_inserts_l, IH. lia.
Qed.

Lemma count_of_sublist (term : string) (l1 l2 : list string) :
  l1 `sublist_of` l2 -> (count_of term l1 <= count_of term l2)%nat.
Proof.
  unfold count_of. induction 1 as [|x l1 l2 _ IH|x l1 l2 _ IH]; [done| |].
  - rewrite !filter_cons. destruct (decide (term = x)); simpl; lia.
  - rewrite filter_cons. destruct (decide (term = x)); simpl; lia.
Qed.

(** X16. Fitting text against inference text, for a caption of code
    points up to U+00FF. The vectorizer is fitted on the hashtags of a
    caption and asked at inference with the whole caption. The tokens of
    the hashtag string of such a caption are a subsequence of the
    tokens of the whole caption, so every term is counted in the whole
    caption at least as often as in its hashtags, and the term count
    behind each cell of the text block of an inference row is at least the
    count behind the same cell of the fitting row of the same caption. *)
Theorem inference_text_dominates_fitting_text (v : TfidfVectorizer.t) (txt : string) :
  analyze (hashtags_str txt) `sublist_of` analyze txt
  /\ (forall term,
        (count_of term (analyze (hashtags_str txt)) <= count_of term (analyze txt))%nat)
  /\ Forall2 le (TfidfVectorizer.row_of v (hashtags_str txt))
                (TfidfVectorizer.row_of v txt).
Proof.
  assert (Hsub : analyze (hashtags_str txt) `sublist_of` analyze txt).
  { rewrite hashtags_str_concat.
    rewrite tokens_of_joined_hashtags
      by (rewrite findall_everywhere; apply matches_everywhere_hashtags).
    rewrite findall_everywhere. unfold analyze.
    apply (hashtag_tokens_within (S (String.length txt))). lia. }
  split_and!; [done|by intros term; apply count_of_sublist|].
  unfold TfidfVectorizer.row_of. apply Forall2_fmap, Forall_Forall2_diag, Forall_forall.
  intros term _. by apply count_of_sublist.
Qed.

